(** * RepoInsight: the catalog read API, embedded and verified

    A shallow embedding of the FastAPI routes of [app/api/routes] over the
    SQLAlchemy models of [app/models].  The database session is explicit
    state: every route is a computation on a [Session] that may return a
    value or raise the error the database engine reports. *)

From Stdlib Require Import ZArith List String Ascii Bool Lia.
From Stdlib Require Import Permutation Sorted.
Import ListNotations.
Local Open Scope Z_scope.

(* ================================================================= *)
(** ** app/models *)

(** Column conventions.  An [Integer] column is a [Z], a [String]/[Text]
    column a [string], a [DateTime] column a [Z] (an instant), a [Boolean]
    column a [bool].  A column declared [nullable=False], a primary key, or
    a column that carries a [default]/[server_default] always holds a value
    in a row written through the model; every other column may hold NULL
    and is an [option]. *)

Module Repository.
Record t : Type := mk {
id : Z;
created_at : Z;
updated_at : option Z;
deleted_at : option Z;
full_name : string;
name : string;
owner : string;
description : option string;
url : string;
stars : Z;
forks : Z;
language : option string;
topics : option string;
readme : option string;
last_pushed_at : option Z;
is_archived : bool;
license : option string;
default_branch : option string;
open_issues : Z;
watchers : Z;
size : Z;
has_issues : bool;
has_projects : bool;
has_wiki : bool;
has_pages : bool;
has_downloads : bool;
is_template : bool;
last_analyzed_at : option Z;
analysis_status : string;
search_keyword : option string;
search_rank : option Z;
last_crawled_at : option Z
}.

(** The same row with its soft-delete marker replaced. *)
Definition with_deleted_at (d : option Z) (r : t) : t :=
mk (id r) (created_at r) (updated_at r) d
   (full_name r) (name r) (owner r) (description r) (url r)
   (stars r) (forks r) (language r) (topics r) (readme r)
   (last_pushed_at r) (is_archived r) (license r) (default_branch r)
   (open_issues r) (watchers r) (size r)
   (has_issues r) (has_projects r) (has_wiki r) (has_pages r)
   (has_downloads r) (is_template r)
   (last_analyzed_at r) (analysis_status r)
   (search_keyword r) (search_rank r) (last_crawled_at r).
End Repository.

Module AIAnalysis.
Record t : Type := mk {
id : Z;
created_at : Z;
updated_at : option Z;
url : string;
content : option string;
status : string;
error_message : option string;
analysis_type : string;
model_version : option string;
tokens_used : option Z
}.
End AIAnalysis.

(** The two tables the routes read, each in the engine's natural row
    order.  [crawl_history] is declared by the models and read by no
    route. *)
Record Store : Type := mkStore {
  repository : list Repository.t;
  ai_analysis : list AIAnalysis.t
}.

(* ================================================================= *)
(** ** The database session *)

(** What the engine refuses of a row count within the bigint range
    (PostgreSQL, the server [app/config.py] names): a negative LIMIT or
    OFFSET.  A count from 2^63 and a text parameter that holds NUL are
    refused as well, before the statement runs; they lie outside this
    model, and the statements that need a returned page keep their
    arguments away from them. *)
Inductive DbError : Type :=
| LimitMustNotBeNegative
| OffsetMustNotBeNegative.

(** A call either returns a value or propagates an exception. *)
Inductive Outcome (A : Type) : Type :=
| Returned (a : A)
| Raised (e : DbError).
Arguments Returned {A} a.
Arguments Raised {A} e.

(** A session: the tables it sees and the number of SELECT statements it
    has sent so far. *)
Record Session : Type := mkSession {
  tables : Store;
  executed : nat
}.

Definition Db (A : Type) : Type := Session -> Outcome A * Session.

Definition ret {A} (a : A) : Db A := fun s => (Returned a, s).

Definition bind {A B} (m : Db A) (k : A -> Db B) : Db B :=
  fun s =>
    match m s with
    | (Returned a, s') => k a s'
    | (Raised e, s') => (Raised e, s')
    end.

Notation "x <- m ;; k" := (bind m (fun x => k))
  (at level 61, m at next level, right associativity).

(** A list comprehension whose body talks to the session. *)
Fixpoint for_each {A B} (f : A -> Db B) (l : list A) : Db (list B) :=
  match l with
  | [] => ret []
  | a :: l' => b <- f a ;; bs <- for_each f l' ;; ret (b :: bs)
  end.

Definition result {A} (m : Db A) (s : Session) : Outcome A := fst (m s).
Definition after {A} (m : Db A) (s : Session) : Session := snd (m s).

(** FastAPI answers 200 for a value a route returns and 500 for an
    exception it lets through. *)
Definition status_code {A} (o : Outcome A) : Z :=
  match o with
  | Returned _ => 200
  | Raised _ => 500
  end.

(* ================================================================= *)
(** ** SQL: LIKE patterns *)

Definition lower_char (c : ascii) : ascii :=
  let n := nat_of_ascii c in
  if (Nat.leb 65 n && Nat.leb n 90)%bool then ascii_of_nat (n + 32) else c.

Fixpoint lower (s : string) : string :=
  match s with
  | EmptyString => EmptyString
  | String c s' => String (lower_char c) (lower s')
  end.

(** Can some suffix of [s] (including [s] itself) be matched by [k]? *)
Fixpoint some_suffix (k : string -> bool) (s : string) : bool :=
  k s ||
  match s with
  | EmptyString => false
  | String _ s' => some_suffix k s'
  end.

(** [like_from esc p s]: does the pattern [p] match all of [s]?  [%] stands
    for any run of characters, [_] for any one character, a backslash
    makes the next pattern character stand for itself; [esc] says that
    the previous pattern character was such a backslash.  A pattern that
    ends in a lone backslash matches nothing here (PostgreSQL reports an
    error when matching reaches it; the pattern the routes build ends in
    [%], never in a lone backslash). *)
Fixpoint like_from (esc : bool) (p : string) : string -> bool :=
  match p with
  | EmptyString =>
      fun s => if esc then false
               else match s with EmptyString => true | _ => false end
  | String c p' =>
      let literal := fun s =>
        match s with
        | String d s' => (Ascii.eqb c d && like_from false p' s')%bool
        | EmptyString => false
        end in
      if esc then literal
      else if Ascii.eqb c "\" then like_from true p'
      else if Ascii.eqb c "%" then some_suffix (like_from false p')
      else if Ascii.eqb c "_" then
        fun s => match s with
                 | String _ s' => like_from false p' s'
                 | EmptyString => false
                 end
      else literal
  end.

Definition like (p s : string) : bool := like_from false p s.

(** [column ILIKE pattern]: LIKE after folding the case of both sides
    (letters A to Z; the strings are byte strings, so this is the engine's
    ILIKE on ASCII text). *)
Definition ilike (pattern value : string) : bool :=
  like (lower pattern) (lower value).

(* ================================================================= *)
(** ** SQL: queries *)

(** The order of two sort keys under [ORDER BY key DESC]: NULL sorts
    before every value, a greater value before a smaller one. *)
Definition desc_le (a b : option Z) : bool :=
  match a, b with
  | None, _ => true
  | Some _, None => false
  | Some x, Some y => y <=? x
  end.

Section OrderBy.
Context {Row : Type} (key : Row -> option Z).

(** [a] goes before the first row it may stand before. *)
Fixpoint insert_desc (a : Row) (l : list Row) : list Row :=
  match l with
  | [] => [a]
  | b :: l' =>
      if desc_le (key a) (key b) then a :: b :: l'
      else b :: insert_desc a l'
  end.

(** The rows in descending order of [key]; rows with equal keys keep
    their natural order (SQL leaves the order of ties open). *)
Fixpoint order_by_desc (l : list Row) : list Row :=
  match l with
  | [] => []
  | a :: l' => insert_desc a (order_by_desc l')
  end.
End OrderBy.

(** What a query object has accumulated. *)
Record Query (Row : Type) : Type := mkQuery {
  q_from : Store -> list Row;
  q_where : list (Row -> bool);
  q_order_by : option (Row -> option Z);
  q_offset : option Z;
  q_limit : option Z
}.
Arguments mkQuery {Row}.
Arguments q_from {Row}.
Arguments q_where {Row}.
Arguments q_order_by {Row}.
Arguments q_offset {Row}.
Arguments q_limit {Row}.

Definition query {Row} (table : Store -> list Row) : Query Row :=
  mkQuery table [] None None None.

Definition filter_by {Row} (criterion : Row -> bool) (q : Query Row) : Query Row :=
  mkQuery (q_from q) (q_where q ++ [criterion]) (q_order_by q)
          (q_offset q) (q_limit q).

Definition order_by {Row} (desc_key : Row -> option Z) (q : Query Row) : Query Row :=
  mkQuery (q_from q) (q_where q) (Some desc_key) (q_offset q) (q_limit q).

Definition offset {Row} (n : Z) (q : Query Row) : Query Row :=
  mkQuery (q_from q) (q_where q) (q_order_by q) (Some n) (q_limit q).

Definition limit {Row} (n : Z) (q : Query Row) : Query Row :=
  mkQuery (q_from q) (q_where q) (q_order_by q) (q_offset q) (Some n).

Definition sql_where {Row} (cs : list (Row -> bool)) (rows : list Row) : list Row :=
  filter (fun r => forallb (fun c => c r) cs) rows.

Definition sql_order_by {Row} (o : option (Row -> option Z)) (rows : list Row)
  : list Row :=
  match o with
  | Some k => order_by_desc k rows
  | None => rows
  end.

Definition sql_offset {Row} (o : option Z) (rows : list Row) : Outcome (list Row) :=
  match o with
  | None => Returned rows
  | Some n =>
      if n <? 0 then Raised OffsetMustNotBeNegative
      else Returned (skipn (Z.to_nat n) rows)
  end.

Definition sql_limit {Row} (o : option Z) (rows : list Row) : Outcome (list Row) :=
  match o with
  | None => Returned rows
  | Some n =>
      if n <? 0 then Raised LimitMustNotBeNegative
      else Returned (firstn (Z.to_nat n) rows)
  end.

(** LIMIT and OFFSET together: the offset is evaluated first, then the
    row count. *)
Definition sql_page {Row} (skip count : option Z) (rows : list Row)
  : Outcome (list Row) :=
  match sql_offset skip rows with
  | Raised e => Raised e
  | Returned rest => sql_limit count rest
  end.

(** SELECT ... FROM ... WHERE ... ORDER BY ... LIMIT ... OFFSET ...: the
    clauses apply in this order whatever order the query object was built
    in: rows are filtered, ordered, skipped, and then counted. *)
Definition select {Row} (q : Query Row) (st : Store) : Outcome (list Row) :=
  sql_page (q_offset q) (q_limit q)
    (sql_order_by (q_order_by q) (sql_where (q_where q) (q_from q st))).

(** [Query.all()]: one SELECT sent, its rows returned. *)
Definition all {Row} (q : Query Row) : Db (list Row) :=
  fun s => (select q (tables s), mkSession (tables s) (S (executed s))).

(** [Query.first()]: the query with LIMIT 1, its first row or None. *)
Definition first {Row} (q : Query Row) : Db (option Row) :=
  rows <- all (limit 1 q) ;; ret (hd_error rows).

(* ================================================================= *)
(** ** app/api/routes/repositories.py *)

(** The [{content, status}] object attached to a repository. *)
Record AnalysisView : Type := mkView {
  content : option string;
  status : string
}.

(** [repo.__dict__.copy()] with one more key: the attributes of the row
    and [analysis], which holds an [AnalysisView] or None. *)
Record EnrichedRepository : Type := mkEnriched {
  repo : Repository.t;
  analysis : option AnalysisView
}.

Definition repo_with_analysis (r : Repository.t) : Db EnrichedRepository :=
  found <- first (filter_by (fun a => String.eqb (AIAnalysis.url a) (Repository.url r))
                            (query ai_analysis)) ;;
  match found with
  | Some a => ret (mkEnriched r (Some (mkView (AIAnalysis.content a) (AIAnalysis.status a))))
  | None => ret (mkEnriched r None)
  end.

(** [if q:] holds for a string that is neither None nor empty. *)
Definition get_repositories (q : option string) (skip limit_ : Z)
  : Db (list EnrichedRepository) :=
  let base := query repository in
  let filtered :=
    match q with
    | Some (String _ _ as text) =>
        filter_by (fun r => ilike ("%" ++ text ++ "%") (Repository.full_name r)) base
    | _ => base
    end in
  repos <- all (limit limit_ (offset skip filtered)) ;;
  for_each repo_with_analysis repos.

Definition get_top_repositories (sort : string) (limit_ : Z)
  : Db (list EnrichedRepository) :=
  repos <-
    (if String.eqb sort "stars" then
       all (limit limit_ (order_by (fun r => Some (Repository.stars r)) (query repository)))
     else if String.eqb sort "updated" then
       all (limit limit_ (order_by Repository.updated_at (query repository)))
     else
       all (limit limit_ (query repository))) ;;
  for_each repo_with_analysis repos.

(** What [GET /repositories/{repo_id}] returns: the dictionary with the
    single key [error], or an enriched repository. *)
Inductive Detail : Type :=
| ErrorPayload (error : string)
| RepositoryPayload (e : EnrichedRepository).

Definition get_repository_detail (repo_id : Z) : Db Detail :=
  found <- first (filter_by (fun r => Repository.id r =? repo_id) (query repository)) ;;
  match found with
  | None => ret (ErrorPayload "Not found")
  | Some r => e <- repo_with_analysis r ;; ret (RepositoryPayload e)
  end.

(* ================================================================= *)
(** ** app/api/routes/analysis.py *)

Definition analyze_project (url : string) : Db AnalysisView :=
  found <- first (filter_by (fun a => String.eqb (AIAnalysis.url a) url)
                            (query ai_analysis)) ;;
  match found with
  | Some a => ret (mkView (AIAnalysis.content a) (AIAnalysis.status a))
  | None => ret (mkView (Some "暂无分析结果"%string) "pending")
  end.

(* ================================================================= *)
(** ** Pure readings used by the statements *)

(** The first analysis row with the given url, in natural order. *)
Definition lookup_analysis (st : Store) (u : string) : option AIAnalysis.t :=
  find (fun a => String.eqb (AIAnalysis.url a) u) (ai_analysis st).

Definition view_of (a : AIAnalysis.t) : AnalysisView :=
  mkView (AIAnalysis.content a) (AIAnalysis.status a).

Definition enrich (st : Store) (r : Repository.t) : EnrichedRepository :=
  mkEnriched r (option_map view_of (lookup_analysis st (Repository.url r))).

Definition outcome_map {A B} (f : A -> B) (o : Outcome A) : Outcome B :=
  match o with
  | Returned a => Returned (f a)
  | Raised e => Raised e
  end.

(** The WHERE clause [get_repositories] builds for [q]. *)
Definition search_filter (q : option string) (r : Repository.t) : bool :=
  match q with
  | Some (String _ _ as text) => ilike ("%" ++ text ++ "%") (Repository.full_name r)
  | _ => true
  end.

(** The ORDER BY clause [get_top_repositories] builds for [sort]. *)
Definition top_order (sort : string) (rows : list Repository.t)
  : list Repository.t :=
  if String.eqb sort "stars" then
    order_by_desc (fun r => Some (Repository.stars r)) rows
  else if String.eqb sort "updated" then
    order_by_desc Repository.updated_at rows
  else rows.

(** A result carries its repository's analysis: the repository is a row
    of the store; an analysis row with the repository's url gives the
    attached [{content, status}]; with no such row nothing is attached. *)
Definition carries_its_analysis (st : Store) (e : EnrichedRepository) : Prop :=
  In (repo e) (repository st) /\
  (forall a, In a (ai_analysis st) ->
             AIAnalysis.url a = Repository.url (repo e) ->
             analysis e = Some (mkView (AIAnalysis.content a) (AIAnalysis.status a))) /\
  ((forall a, In a (ai_analysis st) ->
              AIAnalysis.url a <> Repository.url (repo e)) ->
   analysis e = None).

(** [a] may stand before [b] under ORDER BY [key] DESC. *)
Definition precedes_desc {Row} (key : Row -> option Z) (a b : Row) : Prop :=
  desc_le (key a) (key b) = true.

(** A computation that leaves the tables as they were and whose result
    depends on the session through its tables only. *)
Definition reads {A} (m : Db A) : Prop :=
  forall s,
    tables (after m s) = tables s /\
    forall s', tables s' = tables s -> result m s' = result m s.

(** Erasing the soft-delete marker of a row, of a result, of a payload
    and of every repository row a session sees. *)
Definition undeleted : Repository.t -> Repository.t :=
  Repository.with_deleted_at None.

Definition undeleted_result (e : EnrichedRepository) : EnrichedRepository :=
  mkEnriched (undeleted (repo e)) (analysis e).

Definition undeleted_detail (d : Detail) : Detail :=
  match d with
  | ErrorPayload msg => ErrorPayload msg
  | RepositoryPayload e => RepositoryPayload (undeleted_result e)
  end.

Definition undeleted_session (s : Session) : Session :=
  mkSession (mkStore (map undeleted (repository (tables s)))
                     (ai_analysis (tables s)))
            (executed s).

(** The words of the specification: [q] occurs in [name] as a substring,
    letter case ignored. *)
Definition contains_ignoring_case (q name : string) : Prop :=
  exists before rest : string,
    lower name = (before ++ lower q ++ rest)%string.

(** The same, decided: [starts_with q s] holds when [s] begins with [q],
    [occurs_in q s] when [q] is a substring of [s]. *)
Fixpoint starts_with (q s : string) : bool :=
  match q, s with
  | EmptyString, _ => true
  | String c q', String d s' => (Ascii.eqb c d && starts_with q' s')%bool
  | String _ _, EmptyString => false
  end.

Fixpoint occurs_in (q s : string) : bool :=
  starts_with q s ||
  match s with
  | EmptyString => false
  | String _ s' => occurs_in q s'
  end.

(** A character LIKE gives a meaning of its own. *)
Definition is_like_special (c : ascii) : bool :=
  (Ascii.eqb c "%" || Ascii.eqb c "_" || Ascii.eqb c "\")%bool.

Fixpoint no_like_special (q : string) : bool :=
  match q with
  | EmptyString => true
  | String c q' => (negb (is_like_special c) && no_like_special q')%bool
  end.

(* ================================================================= *)
(** ** Sample rows *)

Definition sample_repository (i : Z) (full owner_ name_ : string) (n : Z)
    (updated deleted : option Z) : Repository.t :=
  Repository.mk i 0 updated deleted full name_ owner_ None
    ("https://github.com/" ++ full) n 0 None None None None false None None
    0 0 0 true true true false true false None "pending" None None None.

Definition sample_analysis (i : Z) (u : string) (text : option string)
    (st : string) : AIAnalysis.t :=
  AIAnalysis.mk i 0 None u text st None "summary" None None.

Definition react := sample_repository 1 "facebook/react" "facebook" "react" 220 (Some 50) None.
Definition widgets := sample_repository 2 "acme/widgets" "acme" "widgets" 42 None (Some 7).
Definition linux := sample_repository 3 "torvalds/linux" "torvalds" "linux" 170 (Some 90) None.
Definition rocq := sample_repository 4 "rocq-prover/rocq" "rocq-prover" "rocq" 5 (Some 10) None.
Definition flask := sample_repository 5 "pallets/flask" "pallets" "flask" 170 None None.

Definition widgets_analysis :=
  sample_analysis 1 "https://github.com/acme/widgets" (Some "Widget library."%string) "completed".

Definition sample_session : Session :=
  mkSession (mkStore [react; widgets; linux; rocq; flask] [widgets_analysis]) 0.

(* ================================================================= *)
(** ** The arguments the statements range over *)

(** A row count for LIMIT or OFFSET is a bigint: the engine takes a count
    below 2^63 and refuses the statement for a greater one.  The driver
    binds a text parameter that holds no NUL character and refuses one
    that does.  [sql_limit], [sql_offset] and [DbError] describe the counts
    and texts that pass; a statement below that needs a returned page asks
    for a count below 2^63 and for [no_nul] of the text that comes with the
    request.  Text in a table holds no NUL. *)
Fixpoint no_nul (text : string) : bool :=
  match text with
  | EmptyString => true
  | String c text' => (negb (Ascii.eqb c "000") && no_nul text')%bool
  end.

Definition keyword_no_nul (q : option string) : bool :=
  match q with
  | Some text => no_nul text
  | None => true
  end.

(** [lower] and [like_from] read text byte by byte and fold the letters A
    to Z, which is what the engine does on ASCII text; on other text the
    engine folds more letters and lets [_] stand for a whole character.  A
    statement below that says which rows a keyword matches asks for ASCII
    text on both sides. *)
Fixpoint ascii_only (text : string) : bool :=
  match text with
  | EmptyString => true
  | String c text' => (Nat.ltb (nat_of_ascii c) 128 && ascii_only text')%bool
  end.

(** [order_by_desc] keeps rows with equal keys in their natural order; the
    engine may order them otherwise, and differently from one statement
    to the next.  A statement below that compares the orders of two
    answers asks for distinct keys. *)
Definition distinct_sort_keys (sort : string) (rows : list Repository.t) : Prop :=
  (sort = "stars"%string -> NoDup (map Repository.stars rows)) /\
  (sort = "updated"%string -> NoDup (map Repository.updated_at rows)).

(* ================================================================= *)
(** ** More readings of the routes *)

(** The placeholder [analyze_project] answers for a url with no analysis
    row. *)
Definition pending_placeholder : AnalysisView :=
  mkView (Some "暂无分析结果"%string) "pending".

(** [a] may stand before [b] in the list of the most recently updated:
    a row never updated (NULL) before every other, a later instant before
    an earlier one. *)
Definition updated_before (a b : Repository.t) : Prop :=
  match Repository.updated_at a, Repository.updated_at b with
  | None, _ => True
  | Some _, None => False
  | Some x, Some y => y <= x
  end.

(** The session after the analysis pipeline has written one more row. *)
Definition with_analysis (a : AIAnalysis.t) (s : Session) : Session :=
  mkSession (mkStore (repository (tables s)) (ai_analysis (tables s) ++ [a]))
            (executed s).

(** A result as it reads once the row [a] is there: a repository with the
    url of [a] carries its [{content, status}], any other is as before. *)
Definition attach (a : AIAnalysis.t) (e : EnrichedRepository) : EnrichedRepository :=
  if String.eqb (AIAnalysis.url a) (Repository.url (repo e))
  then mkEnriched (repo e) (Some (view_of a))
  else e.

Definition attach_detail (a : AIAnalysis.t) (d : Detail) : Detail :=
  match d with
  | ErrorPayload msg => ErrorPayload msg
  | RepositoryPayload e => RepositoryPayload (attach a e)
  end.

Fixpoint no_backslash (q : string) : bool :=
  match q with
  | EmptyString => true
  | String c q' => (negb (Ascii.eqb c "\") && no_backslash q')%bool
  end.

(* ================================================================= *)
(** ** app/main.py and the route decorators *)

(** The functions the routers and the application register. *)
Inductive Endpoint : Type :=
| Ep_get_repositories
| Ep_get_top_repositories
| Ep_get_repository_detail
| Ep_test_repo
| Ep_analyze_project
| Ep_test_analysis
| Ep_root.

(** A part of a path template: a fixed name, or a placeholder such as
    [{repo_id}], which stands for any one non-empty part. *)
Inductive PathPart : Type :=
| Fixed (name : string)
| Placeholder (name : string).

Record Route : Type := mkRoute {
  route_method : string;
  route_path : list PathPart;
  route_endpoint : Endpoint
}.

(** The routes of [repositories.py] and of [analysis.py], in the order the
    decorators register them. *)
Definition repositories_router : list Route :=
  [ mkRoute "GET" [Fixed "repositories"] Ep_get_repositories;
    mkRoute "GET" [Fixed "repositories"; Fixed "top"] Ep_get_top_repositories;
    mkRoute "GET" [Fixed "repositories"; Placeholder "repo_id"]
            Ep_get_repository_detail;
    mkRoute "GET" [Fixed "repositories"; Fixed "test"] Ep_test_repo ].

Definition analysis_router : list Route :=
  [ mkRoute "POST" [Fixed "analysis"; Fixed "analyze"] Ep_analyze_project;
    mkRoute "GET" [Fixed "analysis"; Fixed "test"] Ep_test_analysis ].

Definition include_router (prefix : list string) (router : list Route)
  : list Route :=
  map (fun r => mkRoute (route_method r)
                        (map Fixed prefix ++ route_path r)
                        (route_endpoint r))
      router.

(** The routes [main.py] declares, for the value of [settings.API_PREFIX]
    (by default /api/v1, that is [api; v1]): the two routers, then the
    root. *)
Definition app_routes (prefix : list string) : list Route :=
  include_router prefix repositories_router ++
  include_router prefix analysis_router ++
  [ mkRoute "GET" [] Ep_root ].

(** A path, split at its slashes, against a template. *)
Fixpoint path_matches (template : list PathPart) (path : list string) : bool :=
  match template, path with
  | [], [] => true
  | Fixed name :: template', part :: path' =>
      (String.eqb name part && path_matches template' path')%bool
  | Placeholder _ :: template', part :: path' =>
      (negb (String.eqb part "") && path_matches template' path')%bool
  | _, _ => false
  end.

Inductive Resolution : Type :=
| Handled (e : Endpoint)
| MethodNotAllowed
| NoRoute.

(** The routes are tried in order.  The first whose path and method both
    match handles the request; failing that, a route whose path alone
    matched makes the answer 405; [partial] records that one was seen. *)
Fixpoint resolve_in (routes : list Route) (method : string) (path : list string)
    (partial : bool) : Resolution :=
  match routes with
  | [] => if partial then MethodNotAllowed else NoRoute
  | r :: routes' =>
      if path_matches (route_path r) path then
        if String.eqb (route_method r) method then Handled (route_endpoint r)
        else resolve_in routes' method path true
      else resolve_in routes' method path partial
  end.

Definition resolve (prefix : list string) (method : string) (path : list string)
  : Resolution :=
  resolve_in (app_routes prefix) method path false.

(* ================================================================= *)
(** ** app/web/app.py *)

From Stdlib Require DecimalString.

(** [str(n)] for an int. *)
Definition str_int (n : Z) : string :=
  DecimalString.NilZero.string_of_int (Z.to_int n).

(** A string or None inside an f-string. *)
Definition str_opt (v : option string) : string :=
  match v with
  | Some text => text
  | None => "None"
  end.

(** The requests the pages send, each to [API_BASE_URL] followed by a
    path. *)
Inductive HttpRequest : Type :=
| GET_repositories (q : option string)
| GET_repositories_top (sort : string)
| POST_analysis_analyze (url : string).

(** [API_BASE_URL] is http://localhost:8000/api/v1. *)
Definition API_BASE_PATH : list string := ["api"; "v1"]%string.

Definition request_method (r : HttpRequest) : string :=
  match r with
  | GET_repositories _ | GET_repositories_top _ => "GET"
  | POST_analysis_analyze _ => "POST"
  end.

Definition request_path (r : HttpRequest) : list string :=
  API_BASE_PATH ++
  match r with
  | GET_repositories _ => ["repositories"]
  | GET_repositories_top _ => ["repositories"; "top"]
  | POST_analysis_analyze _ => ["analysis"; "analyze"]
  end%string.

(** The function each request is meant for. *)
Definition request_endpoint (r : HttpRequest) : Endpoint :=
  match r with
  | GET_repositories _ => Ep_get_repositories
  | GET_repositories_top _ => Ep_get_top_repositories
  | POST_analysis_analyze _ => Ep_analyze_project
  end.

(** The browser side of a script run: the server it talks to and the
    requests it has sent. *)
Record Browser : Type := mkBrowser {
  server : Session;
  requests : list HttpRequest
}.

Definition Ui (A : Type) : Type := Browser -> A * Browser.

Definition ui_ret {A} (a : A) : Ui A := fun b => (a, b).

Definition ui_bind {A B} (m : Ui A) (k : A -> Ui B) : Ui B :=
  fun b => let (a, b') := m b in k a b'.

Notation "x <~ m ;; k" := (ui_bind m (fun x => k))
  (at level 61, m at next level, right associativity).

Fixpoint ui_for_each {A B} (f : A -> Ui B) (l : list A) : Ui (list B) :=
  match l with
  | [] => ui_ret []
  | a :: l' => b <~ f a ;; bs <~ ui_for_each f l' ;; ui_ret (b :: bs)
  end.

(** A request runs the route on the server and is logged; the route
    arguments the page does not send take the defaults of the route
    (skip 0, limit 20; limit 10).  The response has status 200 exactly when
    the route returned. *)
Definition send {A} (r : HttpRequest) (route : Db A) : Ui (Outcome A) :=
  fun b =>
    let (o, s') := route (server b) in
    (o, mkBrowser s' (requests b ++ [r])).

Definition requests_get_repositories (q : option string)
  : Ui (Outcome (list EnrichedRepository)) :=
  send (GET_repositories q) (get_repositories q 0 20).

Definition requests_get_top (sort : string)
  : Ui (Outcome (list EnrichedRepository)) :=
  send (GET_repositories_top sort) (get_top_repositories sort 10).

Definition requests_post_analyze (url : string) : Ui (Outcome AnalysisView) :=
  send (POST_analysis_analyze url) (analyze_project url).

(** What a script run puts on the page, call by call. *)
#[warnings="-register-all"]
Inductive Element : Type :=
| st_sidebar_radio (label : string) (options : list string)
| st_title (text : string)
| st_header (text : string)
| st_subheader (text : string)
| st_info (text : string)
| st_warning (text : string)
| st_error (text : string)
| st_success (text : string)
| st_write (value : option string)
| st_markdown (text : string)
| st_text_input (label : string)
| st_button (label : string) (key : option Z)
| st_spinner (text : string) (inside : list Element)
| st_expander (label : string) (inside : list Element)
| st_column (inside : list Element).

Inductive Page : Type := SearchPage | TopPage | AnalyzedPage.

Definition page_name (p : Page) : string :=
  match p with
  | SearchPage => "项目搜索"
  | TopPage => "热门项目"
  | AnalyzedPage => "已分析项目"
  end.

(** A button is known by its key when it has one, by its label
    otherwise. *)
Inductive ButtonId : Type :=
| Labelled (label : string)
| Keyed (key : Z).

(** What the user did to cause this run of the script: the page chosen in
    the sidebar, the text in the search box, and the button whose click
    caused the run, if a click did.  A button call answers True in the run
    its own click caused and in no other. *)
Record Interaction : Type := mkInteraction {
  page : Page;
  search_query : string;
  clicked : option ButtonId
}.

Definition pressed (i : Interaction) (b : ButtonId) : bool :=
  match clicked i, b with
  | Some (Labelled l), Labelled l' => String.eqb l l'
  | Some (Keyed k), Keyed k' => k =? k'
  | _, _ => false
  end.

(** [repo.get('analysis') and repo['analysis'].get('content')]: the
    content when there is an analysis with a content that is neither None
    nor empty. *)
Definition analysis_content (e : EnrichedRepository) : option string :=
  match analysis e with
  | Some v =>
      match content v with
      | Some (String _ _ as text) => Some text
      | _ => None
      end
  | None => None
  end.

Definition repo_label (e : EnrichedRepository) : string :=
  (Repository.full_name (repo e) ++ " (" ++
   str_int (Repository.stars (repo e)) ++ " ⭐)")%string.

Definition repo_lines (e : EnrichedRepository) : list Element :=
  [ st_write (Some ("**描述:** " ++ str_opt (Repository.description (repo e)))%string);
    st_write (Some ("**语言:** " ++ str_opt (Repository.language (repo e)))%string);
    st_write (Some ("**主题:** " ++ str_opt (Repository.topics (repo e)))%string) ].

(** One search result: the expander with the analysis, or with the button
    that asks for it. *)
Definition search_result (i : Interaction) (e : EnrichedRepository) : Ui Element :=
  match analysis_content e with
  | Some text =>
      ui_ret (st_expander (repo_label e)
                (repo_lines e ++
                 [st_write (Some "**AI分析结果:**"%string); st_write (Some text)]))
  | None =>
      let button := st_button "分析项目" (Some (Repository.id (repo e))) in
      if pressed i (Keyed (Repository.id (repo e))) then
        response <~ requests_post_analyze (Repository.url (repo e)) ;;
        ui_ret (st_expander (repo_label e)
                  (repo_lines e ++
                   [button;
                    st_spinner "正在分析..."
                      match response with
                      | Returned v => [st_success "分析完成！"; st_write (content v)]
                      | Raised _ => [st_error "分析失败"]
                      end]))
      else
        ui_ret (st_expander (repo_label e) (repo_lines e ++ [button]))
  end.

Definition search_page (i : Interaction) : Ui (list Element) :=
  let head :=
    [ st_title "GitHub 项目智能分析平台 - 搜索";
      st_header "搜索项目";
      st_text_input "输入搜索关键词";
      st_button "搜索" None ] in
  if pressed i (Labelled "搜索") then
    match search_query i with
    | String _ _ as text =>
        response <~ requests_get_repositories (Some text) ;;
        match response with
        | Returned repos =>
            results <~ ui_for_each (search_result i) repos ;;
            ui_ret (head ++ [st_spinner "正在搜索..." results])
        | Raised _ => ui_ret (head ++ [st_spinner "正在搜索..." []])
        end
    | EmptyString => ui_ret head
    end
  else ui_ret head.

(** One entry of the top lists: the analysis is shown when there is one,
    and nothing is offered otherwise. *)
Definition top_result (e : EnrichedRepository) : Element :=
  st_expander (repo_label e)
    (repo_lines e ++
     match analysis_content e with
     | Some text => [st_write (Some "**AI分析结果:**"%string); st_write (Some text)]
     | None => []
     end).

Definition top_column (heading sort : string) : Ui Element :=
  response <~ requests_get_top sort ;;
  ui_ret (st_column
            (st_subheader heading ::
             match response with
             | Returned repos => map top_result repos
             | Raised _ => []
             end)).

Definition top_page : Ui (list Element) :=
  col1 <~ top_column "按星标数" "stars" ;;
  col2 <~ top_column "最近更新" "updated" ;;
  ui_ret [st_title "GitHub 项目智能分析平台 - 热门项目"; col1; col2].

Definition analyzed_result (e : EnrichedRepository) : Element :=
  st_expander (repo_label e)
    (repo_lines e ++
     [st_write (Some "**AI分析结果:**"%string);
      st_write match analysis e with
               | Some v => content v
               | None => None
               end]).

Definition is_analyzed (e : EnrichedRepository) : bool :=
  match analysis_content e with
  | Some _ => true
  | None => false
  end.

Definition analyzed_page : Ui (list Element) :=
  response <~ requests_get_repositories None ;;
  let head := [st_title "已分析项目"; st_info "只展示有AI分析结果的项目"] in
  match response with
  | Returned repos =>
      let analyzed_repos := filter is_analyzed repos in
      ui_ret (head ++
              match analyzed_repos with
              | [] => [st_warning "暂无已分析项目"]
              | _ => []
              end ++
              map analyzed_result analyzed_repos)
  | Raised _ => ui_ret (head ++ [st_error "获取数据失败"])
  end.

(** One run of the script. *)
Definition script (i : Interaction) : Ui (list Element) :=
  body <~ match page i with
          | SearchPage => search_page i
          | TopPage => top_page
          | AnalyzedPage => analyzed_page
          end ;;
  ui_ret (st_sidebar_radio "导航" (map page_name [SearchPage; TopPage; AnalyzedPage])
          :: body ++
          [st_markdown "---"; st_markdown "RepoInsight - 智能GitHub项目分析平台"]).

(* ================================================================= *)
(** ** Lists and queries *)

Lemma hd_error_firstn_1 {A} (l : list A) : hd_error (firstn 1 l) = hd_error l.
Proof. destruct l; reflexivity. Qed.

Lemma hd_error_filter {A} (c : A -> bool) (l : list A) :
  hd_error (filter c l) = find c l.
Proof.
  induction l as [|a l IH]; simpl; [reflexivity|].
  destruct (c a); [reflexivity | exact IH].
Qed.

Lemma sql_where_single {Row} (c : Row -> bool) (rows : list Row) :
  sql_where [c] rows = filter c rows.
Proof.
  unfold sql_where. apply filter_ext. intro r. simpl. apply andb_true_r.
Qed.

Lemma sql_where_nil {Row} (rows : list Row) : sql_where [] rows = rows.
Proof.
  unfold sql_where. simpl.
  induction rows as [|a l IH]; simpl; [reflexivity | now f_equal].
Qed.

Lemma select_first {Row} (tbl : Store -> list Row) (c : Row -> bool) (st : Store) :
  select (limit 1 (filter_by c (query tbl))) st =
  Returned (firstn 1 (filter c (tbl st))).
Proof.
  unfold select, sql_page, limit, filter_by, query.
  cbn [q_from q_where q_order_by q_offset q_limit app
       sql_order_by sql_offset sql_limit].
  rewrite sql_where_single. reflexivity.
Qed.

(** [first()] on a query with one criterion finds the first row that
    meets it, and sends one statement. *)
Lemma first_run {Row} (tbl : Store -> list Row) (c : Row -> bool) (s : Session) :
  first (filter_by c (query tbl)) s =
  (Returned (find c (tbl (tables s))), mkSession (tables s) (S (executed s))).
Proof.
  unfold first, bind, all, ret. rewrite select_first.
  rewrite hd_error_firstn_1, hd_error_filter. reflexivity.
Qed.

Lemma repo_with_analysis_run (r : Repository.t) (s : Session) :
  repo_with_analysis r s =
  (Returned (enrich (tables s) r), mkSession (tables s) (S (executed s))).
Proof.
  unfold repo_with_analysis, bind. rewrite first_run.
  unfold enrich, lookup_analysis, view_of.
  destruct (find _ _); reflexivity.
Qed.

(** The comprehension over a page: one lookup per row (the N+1 pattern),
    every row enriched, in order. *)
Lemma for_each_repo_with_analysis_run (rows : list Repository.t) (s : Session) :
  for_each repo_with_analysis rows s =
  (Returned (map (enrich (tables s)) rows),
   mkSession (tables s) (List.length rows + executed s)).
Proof.
  revert s. induction rows as [|r rows IH]; intro s.
  - destruct s; reflexivity.
  - cbn [for_each]. unfold bind at 1. rewrite repo_with_analysis_run.
    unfold bind at 1. rewrite IH. cbn [tables executed ret map List.length].
    rewrite <- plus_n_Sm. reflexivity.
Qed.

(** A route that selects a page and enriches it. *)
Lemma page_run (q : Query Repository.t) (s : Session) :
  (repos <- all q ;; for_each repo_with_analysis repos) s =
  match select q (tables s) with
  | Returned rows =>
      (Returned (map (enrich (tables s)) rows),
       mkSession (tables s) (List.length rows + S (executed s)))
  | Raised e => (Raised e, mkSession (tables s) (S (executed s)))
  end.
Proof.
  unfold bind at 1. unfold all.
  destruct (select q (tables s)) as [rows|e]; [|reflexivity].
  now rewrite for_each_repo_with_analysis_run.
Qed.

Lemma sql_page_nonneg {Row} (skip count : Z) (rows : list Row) :
  0 <= skip -> 0 <= count ->
  sql_page (Some skip) (Some count) rows =
  Returned (firstn (Z.to_nat count) (skipn (Z.to_nat skip) rows)).
Proof.
  intros Hs Hc. unfold sql_page, sql_offset, sql_limit.
  destruct (Z.ltb_spec skip 0); [lia|].
  destruct (Z.ltb_spec count 0); [lia|]. reflexivity.
Qed.

Lemma sql_limit_nonneg {Row} (count : Z) (rows : list Row) :
  0 <= count ->
  sql_page None (Some count) rows = Returned (firstn (Z.to_nat count) rows).
Proof.
  intro Hc. unfold sql_page, sql_offset, sql_limit.
  destruct (Z.ltb_spec count 0); [lia | reflexivity].
Qed.

(* ================================================================= *)
(** ** What each route computes *)

Lemma get_repositories_run (q : option string) (skip limit_ : Z) (s : Session) :
  get_repositories q skip limit_ s =
  match sql_page (Some skip) (Some limit_)
                 (filter (search_filter q) (repository (tables s))) with
  | Returned rows =>
      (Returned (map (enrich (tables s)) rows),
       mkSession (tables s) (List.length rows + S (executed s)))
  | Raised e => (Raised e, mkSession (tables s) (S (executed s)))
  end.
Proof.
  unfold get_repositories. rewrite page_run.
  assert (E : forall qq,
    select (limit limit_ (offset skip
       match q with
       | Some (String _ _ as text) =>
           filter_by (fun r => ilike ("%" ++ text ++ "%") (Repository.full_name r))
                     (query repository)
       | _ => query repository
       end)) qq =
    sql_page (Some skip) (Some limit_) (filter (search_filter q) (repository qq))).
  { intro st. unfold select, search_filter.
    destruct q as [[|c text]|];
      cbn [limit offset filter_by query q_from q_where q_order_by q_offset
           q_limit sql_order_by app].
    - rewrite sql_where_nil. f_equal. symmetry. apply forallb_filter_id.
      now apply forallb_forall.
    - now rewrite sql_where_single.
    - rewrite sql_where_nil. f_equal. symmetry. apply forallb_filter_id.
      now apply forallb_forall. }
  rewrite E. reflexivity.
Qed.

Lemma get_top_repositories_run (sort : string) (limit_ : Z) (s : Session) :
  get_top_repositories sort limit_ s =
  match sql_page None (Some limit_) (top_order sort (repository (tables s))) with
  | Returned rows =>
      (Returned (map (enrich (tables s)) rows),
       mkSession (tables s) (List.length rows + S (executed s)))
  | Raised e => (Raised e, mkSession (tables s) (S (executed s)))
  end.
Proof.
  unfold get_top_repositories, top_order.
  destruct (String.eqb sort "stars"); [|destruct (String.eqb sort "updated")];
    rewrite page_run; unfold select;
    cbn [limit order_by query q_from q_where q_order_by q_offset q_limit
         sql_order_by];
    rewrite sql_where_nil; reflexivity.
Qed.

Lemma get_repository_detail_run (repo_id : Z) (s : Session) :
  get_repository_detail repo_id s =
  match find (fun r => Repository.id r =? repo_id) (repository (tables s)) with
  | None => (Returned (ErrorPayload "Not found"),
             mkSession (tables s) (S (executed s)))
  | Some r => (Returned (RepositoryPayload (enrich (tables s) r)),
               mkSession (tables s) (S (S (executed s))))
  end.
Proof.
  unfold get_repository_detail, bind at 1. rewrite first_run.
  destruct (find _ _) as [r|]; [|reflexivity].
  unfold bind. rewrite repo_with_analysis_run. reflexivity.
Qed.

Lemma analyze_project_run (url : string) (s : Session) :
  analyze_project url s =
  (Returned match lookup_analysis (tables s) url with
            | Some a => view_of a
            | None => mkView (Some "暂无分析结果"%string) "pending"
            end,
   mkSession (tables s) (S (executed s))).
Proof.
  unfold analyze_project, bind. rewrite first_run.
  unfold lookup_analysis. destruct (find _ _); reflexivity.
Qed.

(* ================================================================= *)
(** ** Reading computations *)

Create HintDb reads.

Lemma reads_ret {A} (a : A) : reads (ret a).
Proof. intro s. split; [reflexivity | intros s' _; reflexivity]. Qed.

Lemma reads_bind {A B} (m : Db A) (k : A -> Db B) :
  reads m -> (forall a, reads (k a)) -> reads (bind m k).
Proof.
  intros Hm Hk s. destruct (Hm s) as [Ht Hr].
  unfold after, result, bind in *.
  split.
  - destruct (m s) as [[a|e] s1] eqn:E; simpl in *; [|exact Ht].
    destruct (Hk a s1) as [Hk1 _]. unfold after in Hk1. now rewrite Hk1.
  - intros s' Hs'. specialize (Hr s' Hs'). destruct (Hm s') as [Ht' _].
    destruct (m s) as [[a|e] s1] eqn:E; destruct (m s') as [[a'|e'] s1'] eqn:E';
      simpl in *; try discriminate.
    + injection Hr as ->. destruct (Hk a s1) as [_ Hk2].
      apply Hk2. unfold after in Ht'. rewrite E' in Ht'. simpl in Ht'.
      congruence.
    + now injection Hr as ->.
Qed.

Lemma reads_all {Row} (q : Query Row) : reads (all q).
Proof.
  intro s. split; [reflexivity|].
  intros s' Hs'. unfold result, all. simpl. now rewrite Hs'.
Qed.

Lemma reads_first {Row} (q : Query Row) : reads (first q).
Proof.
  unfold first. apply reads_bind; [apply reads_all | intro; apply reads_ret].
Qed.

Lemma reads_for_each {A B} (f : A -> Db B) (l : list A) :
  (forall a, reads (f a)) -> reads (for_each f l).
Proof.
  intro Hf. induction l as [|a l IH]; simpl.
  - apply reads_ret.
  - apply reads_bind; [apply Hf|]. intro b.
    apply reads_bind; [exact IH|]. intro bs. apply reads_ret.
Qed.

#[local] Hint Resolve reads_ret reads_bind reads_all reads_first reads_for_each
  : reads.

Lemma reads_repo_with_analysis (r : Repository.t) : reads (repo_with_analysis r).
Proof.
  unfold repo_with_analysis. apply reads_bind; [auto with reads|].
  intros [a|]; auto with reads.
Qed.

#[local] Hint Resolve reads_repo_with_analysis : reads.

Lemma reads_get_repositories (q : option string) (skip limit_ : Z) :
  reads (get_repositories q skip limit_).
Proof. unfold get_repositories. auto with reads. Qed.

Lemma reads_get_top_repositories (sort : string) (limit_ : Z) :
  reads (get_top_repositories sort limit_).
Proof.
  unfold get_top_repositories. apply reads_bind; [|auto with reads].
  destruct (String.eqb sort "stars"); [|destruct (String.eqb sort "updated")];
    auto with reads.
Qed.

Lemma reads_get_repository_detail (repo_id : Z) :
  reads (get_repository_detail repo_id).
Proof.
  unfold get_repository_detail. apply reads_bind; [auto with reads|].
  intros [r|]; auto with reads.
Qed.

Lemma reads_analyze_project (url : string) : reads (analyze_project url).
Proof.
  unfold analyze_project. apply reads_bind; [auto with reads|].
  intros [a|]; auto with reads.
Qed.

(** Calling a reading computation again, on the session the first call
    left, gives the first result again. *)
Lemma reads_twice {A} (m : Db A) (s : Session) :
  reads m -> result m (after m s) = result m s.
Proof. intro H. destruct (H s) as [Ht Hr]. now apply Hr. Qed.

(* ================================================================= *)
(** ** ORDER BY ... DESC *)

Lemma desc_le_total (a b : option Z) : desc_le a b = false -> desc_le b a = true.
Proof.
  destruct a as [x|], b as [y|]; simpl; try congruence.
  intro H. apply Z.leb_gt in H. apply Z.leb_le. lia.
Qed.

Lemma desc_le_trans (a b c : option Z) :
  desc_le a b = true -> desc_le b c = true -> desc_le a c = true.
Proof.
  destruct a as [x|], b as [y|], c as [z|]; simpl; try congruence.
  rewrite !Z.leb_le. lia.
Qed.

Section OrderByFacts.
Context {Row : Type} (key : Row -> option Z).

Lemma insert_desc_perm (a : Row) (l : list Row) :
  Permutation (insert_desc key a l) (a :: l).
Proof.
  induction l as [|b l IH]; simpl; [apply Permutation_refl|].
  destruct (desc_le (key a) (key b)); [apply Permutation_refl|].
  eapply perm_trans; [apply perm_skip, IH | apply perm_swap].
Qed.

Lemma order_by_desc_perm (l : list Row) : Permutation (order_by_desc key l) l.
Proof.
  induction l as [|a l IH]; simpl; [constructor|].
  eapply perm_trans; [apply insert_desc_perm | now apply perm_skip].
Qed.

Lemma insert_desc_sorted (a : Row) (l : list Row) :
  StronglySorted (precedes_desc key) l ->
  StronglySorted (precedes_desc key) (insert_desc key a l).
Proof.
  induction 1 as [|b l Hl IH Hb]; simpl.
  - repeat constructor.
  - destruct (desc_le (key a) (key b)) eqn:E.
    + constructor; [now constructor|]. constructor; [exact E|].
      eapply Forall_impl; [|exact Hb]. intros c Hc.
      eapply desc_le_trans; [exact E | exact Hc].
    + constructor; [exact IH|].
      eapply Permutation_Forall;
        [apply Permutation_sym, insert_desc_perm|].
      constructor; [|exact Hb]. now apply desc_le_total.
Qed.

Lemma order_by_desc_sorted (l : list Row) :
  StronglySorted (precedes_desc key) (order_by_desc key l).
Proof.
  induction l as [|a l IH]; simpl; [constructor|].
  now apply insert_desc_sorted.
Qed.

Lemma order_by_desc_length (l : list Row) :
  List.length (order_by_desc key l) = List.length l.
Proof. apply Permutation_length, order_by_desc_perm. Qed.
End OrderByFacts.

Lemma StronglySorted_app_inv {A} (R : A -> A -> Prop) (l1 l2 : list A) :
  StronglySorted R (l1 ++ l2) ->
  StronglySorted R l1 /\ StronglySorted R l2 /\
  forall a b, In a l1 -> In b l2 -> R a b.
Proof.
  induction l1 as [|x l1 IH]; simpl; intro H.
  - repeat split; [constructor | exact H | intros a b []].
  - inversion H as [|? ? Hs Hx]; subst.
    destruct (IH Hs) as (H1 & H2 & H3).
    apply Forall_app in Hx as [Hx1 Hx2].
    repeat split; [now constructor | exact H2 |].
    intros a b [->|Ha] Hb.
    + rewrite Forall_forall in Hx2. now apply Hx2.
    + now apply H3.
Qed.

Lemma StronglySorted_impl {A} (R S : A -> A -> Prop) (l : list A) :
  (forall a b, R a b -> S a b) -> StronglySorted R l -> StronglySorted S l.
Proof.
  intros HRS. induction 1 as [|a l Hl IH Ha]; constructor; [exact IH|].
  eapply Forall_impl; [|exact Ha]. intros b. apply HRS.
Qed.

Lemma map_repo_enrich (st : Store) (rows : list Repository.t) :
  map repo (map (enrich st) rows) = rows.
Proof.
  rewrite map_map. simpl. apply map_id.
Qed.

(* ================================================================= *)
(** ** Lookups by url *)

Lemma find_url_none (u : string) (l : list AIAnalysis.t) :
  (forall a, In a l -> AIAnalysis.url a <> u) ->
  find (fun a => String.eqb (AIAnalysis.url a) u) l = None.
Proof.
  induction l as [|b l IH]; simpl; intro H; [reflexivity|].
  destruct (String.eqb_spec (AIAnalysis.url b) u) as [E|_].
  - exfalso. apply (H b); [now left | exact E].
  - apply IH. intros a Ha. apply H. now right.
Qed.

Lemma find_url_unique (u : string) (l : list AIAnalysis.t) (a : AIAnalysis.t) :
  NoDup (map AIAnalysis.url l) -> In a l -> AIAnalysis.url a = u ->
  find (fun x => String.eqb (AIAnalysis.url x) u) l = Some a.
Proof.
  induction l as [|b l IH]; simpl; intros Hnd Hin Hu; [contradiction|].
  inversion Hnd as [|? ? Hnotin Hnd']; subst.
  destruct Hin as [->|Hin].
  - now rewrite String.eqb_refl.
  - destruct (String.eqb_spec (AIAnalysis.url b) (AIAnalysis.url a)) as [E|_].
    + exfalso. apply Hnotin. rewrite E. now apply in_map.
    + now apply IH.
Qed.

Lemma enrich_carries (st : Store) (r : Repository.t) :
  NoDup (map AIAnalysis.url (ai_analysis st)) ->
  In r (repository st) ->
  carries_its_analysis st (enrich st r).
Proof.
  intros Hnd Hr. unfold carries_its_analysis, enrich, lookup_analysis. simpl.
  split; [exact Hr|]. split.
  - intros a Ha Hu. now rewrite (find_url_unique _ _ a Hnd Ha Hu).
  - intro Hno. now rewrite find_url_none.
Qed.

Lemma Forall_enrich_carries (st : Store) (rows : list Repository.t) :
  NoDup (map AIAnalysis.url (ai_analysis st)) ->
  incl rows (repository st) ->
  Forall (carries_its_analysis st) (map (enrich st) rows).
Proof.
  intros Hnd Hincl. apply Forall_forall. intros e He.
  apply in_map_iff in He as (r & <- & Hr).
  apply enrich_carries; [exact Hnd | now apply Hincl].
Qed.

Lemma incl_firstn {A} (n : nat) (l : list A) : incl (firstn n l) l.
Proof.
  intros a Ha. rewrite <- (firstn_skipn n l). apply in_or_app. now left.
Qed.

Lemma incl_skipn {A} (n : nat) (l : list A) : incl (skipn n l) l.
Proof.
  intros a Ha. rewrite <- (firstn_skipn n l). apply in_or_app. now right.
Qed.

Lemma incl_filter {A} (c : A -> bool) (l : list A) : incl (filter c l) l.
Proof. intros a Ha. now apply filter_In in Ha. Qed.

Lemma incl_top_order (sort : string) (rows : list Repository.t) :
  incl (top_order sort rows) rows.
Proof.
  unfold top_order. intros a Ha.
  destruct (String.eqb sort "stars"); [|destruct (String.eqb sort "updated")];
    try exact Ha;
    eapply Permutation_in; [apply order_by_desc_perm | exact Ha
                           |apply order_by_desc_perm | exact Ha].
Qed.

Lemma find_id_some (i : Z) (l : list Repository.t) (r : Repository.t) :
  find (fun x => Repository.id x =? i) l = Some r ->
  In r l /\ Repository.id r = i.
Proof.
  intro H. apply find_some in H as [Hin Hid]. split; [exact Hin|].
  now apply Z.eqb_eq.
Qed.

Lemma find_id_none (i : Z) (l : list Repository.t) :
  find (fun x => Repository.id x =? i) l = None <->
  forall r, In r l -> Repository.id r <> i.
Proof.
  split.
  - intros H r Hr E. apply (find_none _ _ H) in Hr. apply Z.eqb_neq in Hr.
    contradiction.
  - induction l as [|b l IH]; simpl; intro H; [reflexivity|].
    destruct (Z.eqb_spec (Repository.id b) i) as [E|_].
    + exfalso. apply (H b); [now left | exact E].
    + apply IH. intros r Hr. apply H. now right.
Qed.

(* ================================================================= *)
(** ** The routes: results *)

(** C1.  With urls unique among the analysis rows (the column is declared
    unique), every repository that [get_repositories], [get_top_repositories]
    or [get_repository_detail] returns is a row of the store and carries
    [{content, status}] of the analysis row that has its url, or None when
    no analysis row has its url.  Nothing is said of a call that raises. *)
Theorem reads_attach_the_analysis (s : Session) :
  NoDup (map AIAnalysis.url (ai_analysis (tables s))) ->
  (forall q skip limit_,
     match result (get_repositories q skip limit_) s with
     | Returned out => Forall (carries_its_analysis (tables s)) out
     | Raised _ => True
     end) /\
  (forall sort limit_,
     match result (get_top_repositories sort limit_) s with
     | Returned out => Forall (carries_its_analysis (tables s)) out
     | Raised _ => True
     end) /\
  (forall repo_id,
     match result (get_repository_detail repo_id) s with
     | Returned (RepositoryPayload e) =>
         Repository.id (repo e) = repo_id /\ carries_its_analysis (tables s) e
     | Returned (ErrorPayload _) =>
         forall r, In r (repository (tables s)) -> Repository.id r <> repo_id
     | Raised _ => False
     end).
Proof.
  intro Hnd. repeat split.
  - intros q skip limit_. unfold result. rewrite get_repositories_run.
    unfold sql_page, sql_offset, sql_limit.
    destruct (skip <? 0); [exact I|].
    destruct (limit_ <? 0); [exact I|].
    cbn [fst]. apply Forall_enrich_carries; [exact Hnd|].
    eapply incl_tran; [apply incl_firstn|].
    eapply incl_tran; [apply incl_skipn | apply incl_filter].
  - intros sort limit_. unfold result. rewrite get_top_repositories_run.
    unfold sql_page, sql_offset, sql_limit.
    destruct (limit_ <? 0); [exact I|].
    cbn [fst]. apply Forall_enrich_carries; [exact Hnd|].
    eapply incl_tran; [apply incl_firstn | apply incl_top_order].
  - intro repo_id. unfold result. rewrite get_repository_detail_run.
    destruct (find _ _) as [r|] eqn:E; simpl.
    + apply find_id_some in E as [Hin Hid]. split; [exact Hid|].
      now apply enrich_carries.
    + now apply find_id_none.
Qed.

Lemma reads_attach_the_analysis_witness :
  NoDup (map AIAnalysis.url (ai_analysis (tables sample_session))) /\
  (forall q skip limit_,
     match result (get_repositories q skip limit_) sample_session with
     | Returned out => Forall (carries_its_analysis (tables sample_session)) out
     | Raised _ => True
     end) /\
  (forall sort limit_,
     match result (get_top_repositories sort limit_) sample_session with
     | Returned out => Forall (carries_its_analysis (tables sample_session)) out
     | Raised _ => True
     end) /\
  (forall repo_id,
     match result (get_repository_detail repo_id) sample_session with
     | Returned (RepositoryPayload e) =>
         Repository.id (repo e) = repo_id /\
         carries_its_analysis (tables sample_session) e
     | Returned (ErrorPayload _) =>
         forall r, In r (repository (tables sample_session)) ->
                   Repository.id r <> repo_id
     | Raised _ => False
     end).
Proof.
  assert (H : NoDup (map AIAnalysis.url (ai_analysis (tables sample_session)))).
  { simpl. constructor; [intros [] | constructor]. }
  split; [exact H | apply (reads_attach_the_analysis sample_session H)].
Defined.

(** The end-to-end scenario: the widgets repository is found with its
    stars and its analysis attached; a repository with no analysis row
    gets None. *)
Example search_widgets :
  result (get_repositories (Some "widgets"%string) 0 20) sample_session =
  Returned [mkEnriched widgets
              (Some (mkView (Some "Widget library."%string) "completed"))].
Proof. reflexivity. Qed.

Example search_react_in_capitals :
  result (get_repositories (Some "REACT"%string) 0 20) sample_session =
  Returned [mkEnriched react None].
Proof. reflexivity. Qed.

Example search_face :
  result (get_repositories (Some "face"%string) 0 20) sample_session =
  Returned [mkEnriched react None].
Proof. reflexivity. Qed.

(** C3.  For a positive limit that the engine takes as a row count (below
    2^63), [get_top_repositories "stars" limit] returns
    the first [limit] rows of the store ordered by stars, greatest first:
    the page is in descending order of stars, no row left out has more
    stars than a row of the page, and the page holds [limit] rows, or the
    whole store when the store has fewer. *)
Theorem top_by_stars_returns_the_highest (s : Session) (limit_ : Z) :
  0 < limit_ -> limit_ < 2 ^ 63 ->
  exists out page rest,
    result (get_top_repositories "stars" limit_) s = Returned out /\
    map repo out = page /\
    Permutation (page ++ rest) (repository (tables s)) /\
    StronglySorted (fun a b => Repository.stars b <= Repository.stars a) page /\
    (forall a b, In a page -> In b rest ->
                 Repository.stars b <= Repository.stars a) /\
    List.length page =
      Nat.min (Z.to_nat limit_) (List.length (repository (tables s))) /\
    ((Z.to_nat limit_ <= List.length (repository (tables s)))%nat ->
     List.length page = Z.to_nat limit_).
Proof.
  intros Hl _. unfold result.
  rewrite get_top_repositories_run, sql_limit_nonneg by lia.
  unfold top_order. simpl String.eqb. cbv iota.
  set (key := fun r => Some (Repository.stars r)).
  set (sorted := order_by_desc key (repository (tables s))).
  exists (map (enrich (tables s)) (firstn (Z.to_nat limit_) sorted)),
         (firstn (Z.to_nat limit_) sorted), (skipn (Z.to_nat limit_) sorted).
  assert (Hsorted : StronglySorted
            (fun a b => Repository.stars b <= Repository.stars a) sorted).
  { eapply StronglySorted_impl; [|apply (order_by_desc_sorted key)].
    intros a b H. unfold precedes_desc, key in H. simpl in H.
    now apply Z.leb_le. }
  rewrite <- (firstn_skipn (Z.to_nat limit_) sorted) in Hsorted.
  apply StronglySorted_app_inv in Hsorted as (H1 & _ & H3).
  repeat split.
  - apply map_repo_enrich.
  - rewrite firstn_skipn. apply order_by_desc_perm.
  - exact H1.
  - exact H3.
  - rewrite length_firstn. unfold sorted. now rewrite order_by_desc_length.
  - intro Hn. rewrite length_firstn. unfold sorted.
    rewrite order_by_desc_length. now apply Nat.min_l.
Qed.

Lemma top_by_stars_returns_the_highest_witness :
  exists out page rest,
    result (get_top_repositories "stars" 3) sample_session = Returned out /\
    map repo out = page /\
    Permutation (page ++ rest) (repository (tables sample_session)) /\
    StronglySorted (fun a b => Repository.stars b <= Repository.stars a) page /\
    (forall a b, In a page -> In b rest ->
                 Repository.stars b <= Repository.stars a) /\
    List.length page =
      Nat.min (Z.to_nat 3) (List.length (repository (tables sample_session))) /\
    ((Z.to_nat 3 <= List.length (repository (tables sample_session)))%nat ->
     List.length page = Z.to_nat 3).
Proof. apply (top_by_stars_returns_the_highest sample_session 3); lia. Defined.

(** C7.  A sort key other than "stars" and "updated" orders nothing: for a
    limit the engine takes as a row count (from 0, below 2^63) the route
    returns, as an ordinary 200 answer, the
    first [limit] rows in the natural order of the store. *)
Theorem unknown_sort_key_lists_in_natural_order
    (s : Session) (sort : string) (limit_ : Z) :
  sort <> "stars"%string -> sort <> "updated"%string ->
  0 <= limit_ -> limit_ < 2 ^ 63 ->
  exists out,
    result (get_top_repositories sort limit_) s = Returned out /\
    map repo out = firstn (Z.to_nat limit_) (repository (tables s)) /\
    status_code (result (get_top_repositories sort limit_) s) = 200.
Proof.
  intros H1 H2 Hl _. unfold result.
  rewrite get_top_repositories_run, sql_limit_nonneg by assumption.
  unfold top_order.
  apply String.eqb_neq in H1, H2. rewrite H1, H2.
  eexists. split; [reflexivity|]. split; [apply map_repo_enrich | reflexivity].
Qed.

Lemma unknown_sort_key_lists_in_natural_order_witness :
  exists out,
    result (get_top_repositories "forks" 2) sample_session = Returned out /\
    map repo out = firstn (Z.to_nat 2) (repository (tables sample_session)) /\
    status_code (result (get_top_repositories "forks" 2) sample_session) = 200.
Proof.
  apply (unknown_sort_key_lists_in_natural_order sample_session "forks" 2);
    [discriminate | discriminate | lia | lia].
Defined.

(** C5.  When no repository row has the requested id,
    [get_repository_detail] returns the dictionary [{error: "Not found"}]
    as an ordinary value: nothing is raised, the answer is a 200, and no
    repository payload is produced. *)
Theorem missing_id_is_answered_not_found (s : Session) (repo_id : Z) :
  (forall r, In r (repository (tables s)) -> Repository.id r <> repo_id) ->
  result (get_repository_detail repo_id) s = Returned (ErrorPayload "Not found") /\
  status_code (result (get_repository_detail repo_id) s) = 200.
Proof.
  intro H. unfold result. rewrite get_repository_detail_run.
  apply find_id_none in H. rewrite H. split; reflexivity.
Qed.

Lemma missing_id_is_answered_not_found_witness :
  result (get_repository_detail 99) sample_session
    = Returned (ErrorPayload "Not found") /\
  status_code (result (get_repository_detail 99) sample_session) = 200.
Proof.
  apply (missing_id_is_answered_not_found sample_session 99).
  intros r Hr. simpl in Hr.
  repeat (destruct Hr as [<-|Hr]; [discriminate|]). contradiction.
Defined.

(** C4, as the specification words it, fails: for a url with no analysis
    row the route does not answer the English placeholder. *)
Lemma placeholder_is_not_the_english_text :
  (forall a, In a (ai_analysis (tables sample_session)) ->
             AIAnalysis.url a <> "https://github.com/facebook/react"%string) /\
  result (analyze_project "https://github.com/facebook/react") sample_session
    <> Returned (mkView (Some "no analysis available yet"%string) "pending").
Proof.
  split.
  - intros a [<-|[]]. discriminate.
  - discriminate.
Qed.

(** C4, amended.  With urls unique among the analysis rows, and for a url
    the driver takes as a text parameter (one that holds no NUL character),
    [analyze_project url] returns [{content, status}] of the analysis row
    with that url when there is one, and the placeholder
    [{content: "暂无分析结果", status: "pending"}] when there is none; in both
    cases the tables are left as they were. *)
Theorem analyze_project_found_or_placeholder (s : Session) (url : string) :
  NoDup (map AIAnalysis.url (ai_analysis (tables s))) ->
  no_nul url = true ->
  (forall a, In a (ai_analysis (tables s)) -> AIAnalysis.url a = url ->
     result (analyze_project url) s =
     Returned (mkView (AIAnalysis.content a) (AIAnalysis.status a))) /\
  ((forall a, In a (ai_analysis (tables s)) -> AIAnalysis.url a <> url) ->
     result (analyze_project url) s =
     Returned (mkView (Some "暂无分析结果"%string) "pending")) /\
  tables (after (analyze_project url) s) = tables s.
Proof.
  intros Hnd _. unfold result, after. rewrite analyze_project_run.
  unfold lookup_analysis. simpl. repeat split.
  - intros a Ha Hu. now rewrite (find_url_unique _ _ a Hnd Ha Hu).
  - intro Hno. now rewrite find_url_none.
Qed.

Lemma analyze_project_found_or_placeholder_witness :
  NoDup (map AIAnalysis.url (ai_analysis (tables sample_session))) /\
  (forall a, In a (ai_analysis (tables sample_session)) ->
     AIAnalysis.url a = "https://github.com/acme/widgets"%string ->
     result (analyze_project "https://github.com/acme/widgets") sample_session =
     Returned (mkView (AIAnalysis.content a) (AIAnalysis.status a))) /\
  ((forall a, In a (ai_analysis (tables sample_session)) ->
      AIAnalysis.url a <> "https://github.com/acme/widgets"%string) ->
     result (analyze_project "https://github.com/acme/widgets") sample_session =
     Returned (mkView (Some "暂无分析结果"%string) "pending")) /\
  tables (after (analyze_project "https://github.com/acme/widgets") sample_session)
    = tables sample_session.
Proof.
  assert (H : NoDup (map AIAnalysis.url (ai_analysis (tables sample_session)))).
  { simpl. constructor; [intros [] | constructor]. }
  split; [exact H|].
  apply (analyze_project_found_or_placeholder sample_session
           "https://github.com/acme/widgets" H). reflexivity.
Defined.

Example analyze_widgets :
  result (analyze_project "https://github.com/acme/widgets") sample_session =
  Returned (mkView (Some "Widget library."%string) "completed").
Proof. reflexivity. Qed.

(** C6.  [get_repositories] filters by the keyword, then skips [skip] of
    the rows that are left, then keeps [limit] of them: for a keyword the
    driver takes (no NUL character in it) the rows left, in their natural
    order, do not depend on skip and limit, and every skip and limit the
    engine takes as row counts (from 0, below 2^63) cut the page out of
    them.  So over a store of five
    repository rows with distinct ids, the page at offset 0 and, asked
    next, the page at offset 2, both of limit 2, hold two rows each, share
    no row, and together hold four distinct rows of the store. *)
Theorem search_pages_are_disjoint (s : Session) :
  (forall q, keyword_no_nul q = true ->
     exists keep : Repository.t -> bool,
       forall skip limit_,
         0 <= skip < 2 ^ 63 -> 0 <= limit_ < 2 ^ 63 ->
         exists page,
           result (get_repositories q skip limit_) s = Returned page /\
           map repo page =
             firstn (Z.to_nat limit_)
               (skipn (Z.to_nat skip)
                  (filter keep (repository (tables s))))) /\
  (List.length (repository (tables s)) = 5%nat ->
   NoDup (map Repository.id (repository (tables s))) ->
   exists page1 page2,
     result (get_repositories None 0 2) s = Returned page1 /\
     result (get_repositories None 2 2) (after (get_repositories None 0 2) s)
       = Returned page2 /\
     List.length page1 = 2%nat /\ List.length page2 = 2%nat /\
     NoDup (map (fun e => Repository.id (repo e)) (page1 ++ page2)) /\
     (forall e, In e page1 -> ~ In e page2) /\
     (forall e, In e (page1 ++ page2) -> In (repo e) (repository (tables s)))).
Proof.
  split.
  { intros q _. exists (search_filter q).
    intros skip limit_ [Hs _] [Hl _]. unfold result.
    rewrite get_repositories_run, sql_page_nonneg by assumption.
    eexists. split; [reflexivity | apply map_repo_enrich]. }
  intros Hlen Hnd.
  assert (Hafter : tables (after (get_repositories None 0 2) s) = tables s)
    by apply reads_get_repositories.
  unfold result. rewrite !get_repositories_run.
  fold (after (get_repositories None 0 2) s). rewrite Hafter.
  rewrite !sql_page_nonneg by lia.
  assert (Hall : filter (search_filter None) (repository (tables s))
                 = repository (tables s)).
  { apply forallb_filter_id. now apply forallb_forall. }
  rewrite Hall.
  destruct (repository (tables s)) as [|a [|b [|c [|d [|e [|? ?]]]]]];
    try discriminate Hlen.
  change (Z.to_nat 0) with 0%nat. change (Z.to_nat 2) with 2%nat.
  cbn [skipn firstn map fst].
  simpl in Hnd. inversion Hnd as [|? ? Ha Hnd1]; subst.
  inversion Hnd1 as [|? ? Hb Hnd2]; subst.
  inversion Hnd2 as [|? ? Hc Hnd3]; subst.
  inversion Hnd3 as [|? ? Hd Hnd4]; subst.
  simpl in Ha, Hb, Hc, Hd.
  do 2 eexists. repeat split; try reflexivity.
  - cbn [map app repo enrich]. repeat constructor; simpl; tauto.
  - intros x Hx1 Hx2.
    assert (E1 : Repository.id (repo x) = Repository.id a
                 \/ Repository.id (repo x) = Repository.id b).
    { destruct Hx1 as [<-|[<-|[]]]; simpl; tauto. }
    assert (E2 : Repository.id (repo x) = Repository.id c
                 \/ Repository.id (repo x) = Repository.id d).
    { destruct Hx2 as [<-|[<-|[]]]; simpl; tauto. }
    destruct E1 as [E|E], E2 as [E'|E']; rewrite E in E'; intuition congruence.
  - intros x Hx. simpl in Hx.
    destruct Hx as [<-|[<-|[<-|[<-|[]]]]]; simpl; tauto.
Qed.

Lemma search_pages_are_disjoint_witness :
  exists page1 page2,
    result (get_repositories None 0 2) sample_session = Returned page1 /\
    result (get_repositories None 2 2)
           (after (get_repositories None 0 2) sample_session)
      = Returned page2 /\
    List.length page1 = 2%nat /\ List.length page2 = 2%nat /\
    NoDup (map (fun e => Repository.id (repo e)) (page1 ++ page2)) /\
    (forall e, In e page1 -> ~ In e page2) /\
    (forall e, In e (page1 ++ page2) ->
               In (repo e) (repository (tables sample_session))).
Proof.
  apply (proj2 (search_pages_are_disjoint sample_session)); [reflexivity|].
  simpl. repeat constructor; simpl; intuition discriminate.
Defined.

Example search_first_two_pages :
  result (get_repositories None 0 2) sample_session
    = Returned [mkEnriched react None;
                mkEnriched widgets
                  (Some (mkView (Some "Widget library."%string) "completed"))] /\
  result (get_repositories None 2 2)
         (after (get_repositories None 0 2) sample_session)
    = Returned [mkEnriched linux None; mkEnriched rocq None].
Proof. split; reflexivity. Qed.

(* ================================================================= *)
(** ** The routes: effects *)

(** C8.  Every route only reads: whatever the arguments and the session,
    the tables after the call are the tables before it, whether the call
    returned or raised. *)
Theorem routes_leave_the_tables_unchanged (s : Session) :
  (forall q skip limit_,
     tables (after (get_repositories q skip limit_) s) = tables s) /\
  (forall sort limit_,
     tables (after (get_top_repositories sort limit_) s) = tables s) /\
  (forall repo_id,
     tables (after (get_repository_detail repo_id) s) = tables s) /\
  (forall url,
     tables (after (analyze_project url) s) = tables s).
Proof.
  repeat split; intros.
  - apply reads_get_repositories.
  - apply reads_get_top_repositories.
  - apply reads_get_repository_detail.
  - apply reads_analyze_project.
Qed.

(** C9.  Every route answers the same twice: called again with the same
    arguments on the session the first call left behind, it gives the
    result the first call gave. *)
Theorem routes_answer_the_same_twice (s : Session) :
  (forall q skip limit_,
     result (get_repositories q skip limit_)
            (after (get_repositories q skip limit_) s)
     = result (get_repositories q skip limit_) s) /\
  (forall sort limit_,
     result (get_top_repositories sort limit_)
            (after (get_top_repositories sort limit_) s)
     = result (get_top_repositories sort limit_) s) /\
  (forall repo_id,
     result (get_repository_detail repo_id)
            (after (get_repository_detail repo_id) s)
     = result (get_repository_detail repo_id) s) /\
  (forall url,
     result (analyze_project url) (after (analyze_project url) s)
     = result (analyze_project url) s).
Proof.
  repeat split; intros; apply reads_twice.
  - apply reads_get_repositories.
  - apply reads_get_top_repositories.
  - apply reads_get_repository_detail.
  - apply reads_analyze_project.
Qed.

(** The session itself does move: a page of n rows costs n + 1 SELECT
    statements. *)
Lemma get_repositories_statements (q : option string) (skip limit_ : Z)
    (s : Session) (page : list EnrichedRepository) :
  result (get_repositories q skip limit_) s = Returned page ->
  executed (after (get_repositories q skip limit_) s)
  = (List.length page + 1 + executed s)%nat.
Proof.
  unfold result, after. rewrite get_repositories_run.
  destruct (sql_page _ _ _) as [rows|e]; simpl; [|discriminate].
  intros [= <-]. rewrite length_map. lia.
Qed.

(* ================================================================= *)
(** ** Soft-deleted rows *)

Section RowMap.
Context {Row : Type} (f : Row -> Row).

Lemma filter_map_invariant (c : Row -> bool) (l : list Row) :
  (forall r, c (f r) = c r) -> filter c (map f l) = map f (filter c l).
Proof.
  intro Hc. induction l as [|a l IH]; simpl; [reflexivity|].
  rewrite Hc. destruct (c a); simpl; now rewrite IH.
Qed.

Lemma find_map_invariant (c : Row -> bool) (l : list Row) :
  (forall r, c (f r) = c r) -> find c (map f l) = option_map f (find c l).
Proof.
  intro Hc. induction l as [|a l IH]; simpl; [reflexivity|].
  rewrite Hc. destruct (c a); [reflexivity | exact IH].
Qed.

Lemma insert_desc_map (key : Row -> option Z) (a : Row) (l : list Row) :
  (forall r, key (f r) = key r) ->
  insert_desc key (f a) (map f l) = map f (insert_desc key a l).
Proof.
  intro Hk. induction l as [|b l IH]; simpl; [reflexivity|].
  rewrite !Hk. destruct (desc_le (key a) (key b)); simpl;
    [reflexivity | now rewrite IH].
Qed.

Lemma order_by_desc_map (key : Row -> option Z) (l : list Row) :
  (forall r, key (f r) = key r) ->
  order_by_desc key (map f l) = map f (order_by_desc key l).
Proof.
  intro Hk. induction l as [|a l IH]; simpl; [reflexivity|].
  rewrite IH. now apply insert_desc_map.
Qed.

Lemma sql_page_map (skip count : option Z) (rows : list Row) :
  sql_page skip count (map f rows)
  = outcome_map (map f) (sql_page skip count rows).
Proof.
  unfold sql_page, sql_offset, sql_limit.
  destruct skip as [n|]; [destruct (n <? 0); [reflexivity|]|];
    (destruct count as [m|]; [destruct (m <? 0); [reflexivity|]|]);
    simpl; now rewrite ?skipn_map, ?firstn_map.
Qed.
End RowMap.

Lemma search_filter_undeleted (q : option string) (r : Repository.t) :
  search_filter q (undeleted r) = search_filter q r.
Proof. reflexivity. Qed.

Lemma top_order_undeleted (sort : string) (rows : list Repository.t) :
  top_order sort (map undeleted rows) = map undeleted (top_order sort rows).
Proof.
  unfold top_order.
  destruct (String.eqb sort "stars"); [|destruct (String.eqb sort "updated")];
    [apply order_by_desc_map | apply order_by_desc_map |]; reflexivity.
Qed.

Lemma enrich_undeleted (s : Session) (r : Repository.t) :
  enrich (tables (undeleted_session s)) (undeleted r)
  = undeleted_result (enrich (tables s) r).
Proof. reflexivity. Qed.

Lemma map_enrich_undeleted (s : Session) (rows : list Repository.t) :
  map (enrich (tables (undeleted_session s))) (map undeleted rows)
  = map undeleted_result (map (enrich (tables s)) rows).
Proof. rewrite !map_map. apply map_ext. intro r. apply enrich_undeleted. Qed.

(** C10.  No route looks at [deleted_at].  Erase the marker from every
    repository row of the store, and each of [get_repositories],
    [get_top_repositories] and [get_repository_detail] answers what it
    answers over the marked store, the marker erased: a marked row is
    returned for the same arguments, and at the same place, as the same row
    without its marker. *)
Theorem soft_deleted_rows_are_served (s : Session) :
  (forall q skip limit_,
     result (get_repositories q skip limit_) (undeleted_session s)
     = outcome_map (map undeleted_result)
         (result (get_repositories q skip limit_) s)) /\
  (forall sort limit_,
     result (get_top_repositories sort limit_) (undeleted_session s)
     = outcome_map (map undeleted_result)
         (result (get_top_repositories sort limit_) s)) /\
  (forall repo_id,
     result (get_repository_detail repo_id) (undeleted_session s)
     = outcome_map undeleted_detail
         (result (get_repository_detail repo_id) s)).
Proof.
  unfold result. repeat split.
  - intros q skip limit_. rewrite !get_repositories_run.
    change (repository (tables (undeleted_session s)))
      with (map undeleted (repository (tables s))).
    rewrite filter_map_invariant by apply search_filter_undeleted.
    rewrite sql_page_map.
    destruct (sql_page _ _ _) as [rows|e]; cbn [outcome_map fst];
      [|reflexivity].
    now rewrite map_enrich_undeleted.
  - intros sort limit_. rewrite !get_top_repositories_run.
    change (repository (tables (undeleted_session s)))
      with (map undeleted (repository (tables s))).
    rewrite top_order_undeleted, sql_page_map.
    destruct (sql_page _ _ _) as [rows|e]; cbn [outcome_map fst];
      [|reflexivity].
    now rewrite map_enrich_undeleted.
  - intro repo_id. rewrite !get_repository_detail_run.
    change (repository (tables (undeleted_session s)))
      with (map undeleted (repository (tables s))).
    rewrite find_map_invariant by reflexivity.
    destruct (find _ _) as [r|]; reflexivity.
Qed.

(** The widgets row is marked deleted and is served all the same. *)
Example deleted_row_is_found :
  Repository.deleted_at widgets = Some 7 /\
  result (get_repository_detail 2) sample_session
  = Returned (RepositoryPayload
      (mkEnriched widgets
         (Some (mkView (Some "Widget library."%string) "completed")))).
Proof. split; reflexivity. Qed.

(* ================================================================= *)
(** ** LIKE patterns *)

Local Open Scope string_scope.

Lemma lower_app (a b : string) : lower (a ++ b) = lower a ++ lower b.
Proof. induction a as [|c a IH]; simpl; [reflexivity | now rewrite IH]. Qed.

Lemma lower_char_special (c : ascii) :
  is_like_special (lower_char c) = is_like_special c.
Proof. destruct c as [[] [] [] [] [] [] [] []]; reflexivity. Qed.

Lemma no_like_special_lower (q : string) :
  no_like_special (lower q) = no_like_special q.
Proof.
  induction q as [|c q IH]; simpl; [reflexivity|].
  now rewrite lower_char_special, IH.
Qed.

Lemma some_suffix_spec (k : string -> bool) (s : string) :
  some_suffix k s = true <->
  exists before rest, s = before ++ rest /\ k rest = true.
Proof.
  induction s as [|c s IH]; simpl.
  - rewrite orb_false_r. split.
    + intro H. now exists "", "".
    + intros (before & rest & E & H).
      destruct before; [|discriminate]. simpl in E. now subst.
  - rewrite orb_true_iff, IH. split.
    + intros [H|(before & rest & -> & H)].
      * now exists "", (String c s).
      * now exists (String c before), rest.
    + intros (before & rest & E & H).
      destruct before as [|d before]; simpl in E.
      * left. now subst.
      * right. injection E as -> ->. now exists before, rest.
Qed.

Lemma like_from_plain_char (c : ascii) (p s : string) :
  is_like_special c = false ->
  like_from false (String c p) s =
  match s with
  | String d s' => (Ascii.eqb c d && like_from false p s')%bool
  | EmptyString => false
  end.
Proof.
  unfold is_like_special. intro H.
  apply orb_false_elim in H as [H H3]. apply orb_false_elim in H as [H1 H2].
  simpl. now rewrite H1, H2, H3.
Qed.

(** A run of plain characters at the head of a pattern matches itself. *)
Lemma like_from_plain (q p s : string) :
  no_like_special q = true ->
  like_from false (q ++ p) s = true <->
  exists rest, s = q ++ rest /\ like_from false p rest = true.
Proof.
  revert s. induction q as [|c q IH]; intros s Hq.
  - simpl. split; [intro H; now exists s | now intros (rest & -> & H)].
  - simpl in Hq. apply andb_true_iff in Hq as [Hc Hq].
    apply negb_true_iff in Hc.
    change (String c q ++ p) with (String c (q ++ p)).
    rewrite like_from_plain_char by exact Hc.
    destruct s as [|d s].
    + split; [discriminate | intros (rest & E & _); discriminate].
    + rewrite andb_true_iff, (IH s Hq). split.
      * intros [E (rest & -> & H)]. apply Ascii.eqb_eq in E as ->.
        now exists rest.
      * intros (rest & E & H). simpl in E. injection E as -> ->.
        split; [apply Ascii.eqb_refl | now exists rest].
Qed.

Lemma like_percent_anything (s : string) : like_from false "%" s = true.
Proof.
  simpl. apply some_suffix_spec. exists s, "". split; [|reflexivity].
  induction s as [|c s IH]; simpl; [reflexivity | now rewrite <- IH].
Qed.

(** Between two [%], a run of plain characters asks for a substring. *)
Lemma like_contains (q s : string) :
  no_like_special q = true ->
  like ("%" ++ q ++ "%") s = true <->
  exists before rest, s = before ++ q ++ rest.
Proof.
  intro Hq. unfold like.
  change (like_from false ("%" ++ q ++ "%") s)
    with (some_suffix (like_from false (q ++ "%")) s).
  rewrite some_suffix_spec. split.
  - intros (before & tail & -> & H).
    apply like_from_plain in H as (rest & -> & _); [|exact Hq].
    now exists before, rest.
  - intros (before & rest & ->). exists before, (q ++ rest).
    split; [reflexivity|]. apply like_from_plain; [exact Hq|].
    exists rest. split; [reflexivity | apply like_percent_anything].
Qed.

Lemma ilike_contains (q name : string) :
  no_like_special q = true ->
  ilike ("%" ++ q ++ "%") name = true <-> contains_ignoring_case q name.
Proof.
  intro Hq. unfold ilike, contains_ignoring_case.
  change ("%" ++ q ++ "%") with (String "%" (q ++ "%")).
  change (lower (String "%" (q ++ "%"))) with (String "%" (lower (q ++ "%"))).
  rewrite lower_app.
  change (String "%" (lower q ++ lower "%")) with ("%" ++ lower q ++ "%").
  apply like_contains. now rewrite no_like_special_lower.
Qed.

Lemma starts_with_spec (q s : string) :
  starts_with q s = true <-> exists rest, s = q ++ rest.
Proof.
  revert s. induction q as [|c q IH]; intro s; simpl.
  - split; [intro; now exists s | reflexivity].
  - destruct s as [|d s].
    + split; [discriminate | intros (rest & E); discriminate].
    + rewrite andb_true_iff, IH. split.
      * intros [E (rest & ->)]. apply Ascii.eqb_eq in E as ->. now exists rest.
      * intros (rest & E). injection E as -> ->.
        split; [apply Ascii.eqb_refl | now exists rest].
Qed.

Lemma occurs_in_spec (q s : string) :
  occurs_in q s = true <-> exists before rest, s = before ++ q ++ rest.
Proof.
  induction s as [|c s IH]; simpl.
  - rewrite orb_false_r, starts_with_spec. split.
    + intros (rest & E). now exists "", rest.
    + intros (before & rest & E). destruct before; [|discriminate].
      now exists rest.
  - rewrite orb_true_iff, starts_with_spec, IH. split.
    + intros [(rest & E)|(before & rest & ->)].
      * now exists "", rest.
      * now exists (String c before), rest.
    + intros (before & rest & E). destruct before as [|d before]; simpl in E.
      * left. now exists rest.
      * right. injection E as -> ->. now exists before, rest.
Qed.

Lemma contains_ignoring_case_decided (q name : string) :
  contains_ignoring_case q name <-> occurs_in (lower q) (lower name) = true.
Proof. unfold contains_ignoring_case. now rewrite occurs_in_spec. Qed.

(* ================================================================= *)
(** ** Search by keyword *)

(** X1.  A keyword of ASCII characters, with no [%], [_], backslash or NUL
    in it, searched over full names of ASCII characters, with a skip and a
    limit the engine takes as row counts (from 0, below 2^63), is searched
    as a substring, letter case ignored: the page is cut from exactly the
    rows whose full name contains the keyword, and every row of the page
    contains it. *)
Theorem search_by_plain_keyword
    (s : Session) (q : string) (skip limit_ : Z) :
  q <> "" -> no_like_special q = true ->
  no_nul q = true -> ascii_only q = true ->
  Forall (fun r => ascii_only (Repository.full_name r) = true)
         (repository (tables s)) ->
  0 <= skip < 2 ^ 63 -> 0 <= limit_ < 2 ^ 63 ->
  exists page,
    result (get_repositories (Some q) skip limit_) s = Returned page /\
    map repo page =
      firstn (Z.to_nat limit_)
        (skipn (Z.to_nat skip)
           (filter (fun r => occurs_in (lower q) (lower (Repository.full_name r)))
                   (repository (tables s)))) /\
    forall e, In e page ->
      In (repo e) (repository (tables s)) /\
      contains_ignoring_case q (Repository.full_name (repo e)).
Proof.
  intros Hne Hq _ _ _ [Hs _] [Hl _]. unfold result.
  rewrite get_repositories_run, sql_page_nonneg by assumption.
  assert (Hf : forall r,
            search_filter (Some q) r
            = occurs_in (lower q) (lower (Repository.full_name r))).
  { intro r. destruct q as [|c q]; [contradiction|].
    unfold search_filter. apply eq_true_iff_eq.
    now rewrite ilike_contains, contains_ignoring_case_decided. }
  rewrite (filter_ext _ _ Hf).
  eexists. split; [reflexivity|]. split; [apply map_repo_enrich|].
  intros e He. apply in_map_iff in He as (r & <- & Hr). simpl.
  apply incl_firstn, incl_skipn, filter_In in Hr as [Hin Hocc].
  split; [exact Hin | now apply contains_ignoring_case_decided].
Qed.

Lemma search_by_plain_keyword_witness :
  exists page,
    result (get_repositories (Some "REACT") 0 20) sample_session
      = Returned page /\
    map repo page =
      firstn (Z.to_nat 20)
        (skipn (Z.to_nat 0)
           (filter (fun r => occurs_in (lower "REACT")
                                       (lower (Repository.full_name r)))
                   (repository (tables sample_session)))) /\
    forall e, In e page ->
      In (repo e) (repository (tables sample_session)) /\
      contains_ignoring_case "REACT" (Repository.full_name (repo e)).
Proof.
  apply (search_by_plain_keyword sample_session "REACT" 0 20);
    [discriminate | reflexivity | reflexivity | reflexivity
    | repeat constructor | lia | lia].
Defined.

(** C2, at a keyword with an underscore in it.  The pattern the route
    builds gives [_] to LIKE unescaped, where it stands for any one
    character: the search for "r_act" returns facebook/react, whose full
    name does not contain "r_act". *)
Theorem search_reads_underscore_as_any_character :
  result (get_repositories (Some "r_act") 0 20) sample_session
    = Returned [mkEnriched react None] /\
  Repository.full_name react = "facebook/react" /\
  ~ contains_ignoring_case "r_act" (Repository.full_name react).
Proof.
  split; [reflexivity|]. split; [reflexivity|].
  rewrite contains_ignoring_case_decided. discriminate.
Qed.

(** A lone [%] as keyword matches every full name. *)
Example search_percent_lists_everything :
  result (get_repositories (Some "%") 0 20) sample_session
  = result (get_repositories None 0 20) sample_session.
Proof. reflexivity. Qed.

(* ================================================================= *)
(** ** More on the routes *)

Local Close Scope string_scope.

Lemma firstn_firstn_skipn {A} (a b : nat) (l : list A) :
  firstn a l ++ firstn b (skipn a l) = firstn (a + b) l.
Proof.
  revert l. induction a as [|a IH]; intro l; simpl; [reflexivity|].
  destruct l as [|x l]; simpl.
  - now rewrite firstn_nil.
  - now rewrite IH.
Qed.

Lemma skipn_skipn_add {A} (a b : nat) (l : list A) :
  skipn b (skipn a l) = skipn (a + b) l.
Proof.
  revert l. induction a as [|a IH]; intro l; simpl; [reflexivity|].
  destruct l as [|x l]; simpl; [now rewrite skipn_nil | apply IH].
Qed.

Lemma filter_all {A} (c : A -> bool) (l : list A) :
  (forall a, c a = true) -> filter c l = l.
Proof.
  intro H. apply forallb_filter_id. apply forallb_forall. intros a _. apply H.
Qed.

(** X2.  For a limit the engine takes as a row count (from 0, below 2^63),
    [get_top_repositories "updated" limit] returns the first [limit] rows of the store in the order of
    [ORDER BY updated_at DESC]: rows never updated first, then the latest
    update first; no row left out may stand before a row of the page. *)
Theorem top_by_updated_returns_the_latest (s : Session) (limit_ : Z) :
  0 <= limit_ -> limit_ < 2 ^ 63 ->
  exists out page rest,
    result (get_top_repositories "updated" limit_) s = Returned out /\
    map repo out = page /\
    Permutation (page ++ rest) (repository (tables s)) /\
    StronglySorted updated_before page /\
    (forall a b, In a page -> In b rest -> updated_before a b) /\
    List.length page =
      Nat.min (Z.to_nat limit_) (List.length (repository (tables s))).
Proof.
  intros Hl _. unfold result.
  rewrite get_top_repositories_run, sql_limit_nonneg by lia.
  unfold top_order. simpl String.eqb. cbv iota.
  set (sorted := order_by_desc Repository.updated_at (repository (tables s))).
  exists (map (enrich (tables s)) (firstn (Z.to_nat limit_) sorted)),
         (firstn (Z.to_nat limit_) sorted), (skipn (Z.to_nat limit_) sorted).
  assert (Hsorted : StronglySorted updated_before sorted).
  { eapply StronglySorted_impl; [|apply (order_by_desc_sorted Repository.updated_at)].
    intros a b H. unfold precedes_desc, desc_le in H. unfold updated_before.
    destruct (Repository.updated_at a), (Repository.updated_at b);
      try exact I; try discriminate. now apply Z.leb_le. }
  rewrite <- (firstn_skipn (Z.to_nat limit_) sorted) in Hsorted.
  apply StronglySorted_app_inv in Hsorted as (H1 & _ & H3).
  repeat split.
  - apply map_repo_enrich.
  - rewrite firstn_skipn. apply order_by_desc_perm.
  - exact H1.
  - exact H3.
  - rewrite length_firstn. unfold sorted. now rewrite order_by_desc_length.
Qed.

Lemma top_by_updated_returns_the_latest_witness :
  exists out page rest,
    result (get_top_repositories "updated" 3) sample_session = Returned out /\
    map repo out = page /\
    Permutation (page ++ rest) (repository (tables sample_session)) /\
    StronglySorted updated_before page /\
    (forall a b, In a page -> In b rest -> updated_before a b) /\
    List.length page =
      Nat.min (Z.to_nat 3) (List.length (repository (tables sample_session))).
Proof. apply (top_by_updated_returns_the_latest sample_session 3); lia. Defined.

Example top_by_updated_sample :
  option_map (map (fun e => Repository.full_name (repo e)))
    match result (get_top_repositories "updated" 3) sample_session with
    | Returned out => Some out
    | Raised _ => None
    end
  = Some ["acme/widgets"; "pallets/flask"; "torvalds/linux"]%string.
Proof. reflexivity. Qed.

(** X3.  What a call costs in SELECT statements: a list route that returns
    a page of n repositories has sent n + 1 (one for the page, one per
    repository for its analysis), and 1 when the engine refuses it; the
    detail route 2 for a repository it finds and 1 for one it does not;
    [analyze_project] always 1. *)
Theorem statements_sent (s : Session) :
  (forall q skip limit_,
     executed (after (get_repositories q skip limit_) s) =
     match result (get_repositories q skip limit_) s with
     | Returned page => (List.length page + 1 + executed s)%nat
     | Raised _ => (1 + executed s)%nat
     end) /\
  (forall sort limit_,
     executed (after (get_top_repositories sort limit_) s) =
     match result (get_top_repositories sort limit_) s with
     | Returned page => (List.length page + 1 + executed s)%nat
     | Raised _ => (1 + executed s)%nat
     end) /\
  (forall repo_id,
     executed (after (get_repository_detail repo_id) s) =
     match result (get_repository_detail repo_id) s with
     | Returned (RepositoryPayload _) => (2 + executed s)%nat
     | _ => (1 + executed s)%nat
     end) /\
  (forall url,
     executed (after (analyze_project url) s) = (1 + executed s)%nat).
Proof.
  unfold result, after. repeat split.
  - intros q skip limit_. rewrite get_repositories_run.
    destruct (sql_page _ _ _) as [rows|e]; cbn [fst snd executed];
      [rewrite length_map; lia | reflexivity].
  - intros sort limit_. rewrite get_top_repositories_run.
    destruct (sql_page _ _ _) as [rows|e]; cbn [fst snd executed];
      [rewrite length_map; lia | reflexivity].
  - intro repo_id. rewrite get_repository_detail_run.
    destruct (find _ _); reflexivity.
  - intro url. rewrite analyze_project_run. reflexivity.
Qed.

(* ================================================================= *)
(** ** More on the search keyword *)

Lemma some_suffix_here (k : string -> bool) (s : string) :
  k s = true -> some_suffix k s = true.
Proof. intro H. destruct s; simpl; now rewrite H. Qed.

Lemma some_suffix_later (k : string -> bool) (c : ascii) (s : string) :
  some_suffix k s = true -> some_suffix k (String c s) = true.
Proof. intro H. simpl. rewrite H. apply orb_true_r. Qed.

(** A pattern with no backslash in it matches itself: [%] matches a
    percent sign and [_] an underscore among everything else they match. *)
Lemma like_from_itself (p r s : string) :
  no_backslash p = true ->
  like_from false r s = true ->
  like_from false (p ++ r) (p ++ s) = true.
Proof.
  intros Hp Hr. induction p as [|c p IH]; [exact Hr|].
  simpl in Hp. apply andb_true_iff in Hp as [Hc Hp].
  apply negb_true_iff in Hc. specialize (IH Hp).
  change ((String c p ++ r)%string) with (String c (p ++ r)).
  change ((String c p ++ s)%string) with (String c (p ++ s)).
  cbn [like_from]. rewrite Hc.
  destruct (Ascii.eqb c "%") eqn:E1.
  - apply some_suffix_later, some_suffix_here, IH.
  - destruct (Ascii.eqb c "_") eqn:E2; [exact IH|].
    now rewrite Ascii.eqb_refl, IH.
Qed.

Lemma lower_char_backslash (c : ascii) :
  Ascii.eqb (lower_char c) "\" = Ascii.eqb c "\".
Proof. destruct c as [[] [] [] [] [] [] [] []]; reflexivity. Qed.

Lemma no_backslash_lower (q : string) : no_backslash (lower q) = no_backslash q.
Proof.
  induction q as [|c q IH]; simpl; [reflexivity|].
  now rewrite lower_char_backslash, IH.
Qed.

Lemma lower_pattern (q : string) :
  lower ("%" ++ q ++ "%") = ("%" ++ lower q ++ "%")%string.
Proof.
  change (("%" ++ q ++ "%")%string) with (String "%" (q ++ "%")).
  cbn [lower]. now rewrite lower_app.
Qed.

Lemma ilike_finds_literal (q name : string) :
  no_backslash q = true ->
  contains_ignoring_case q name ->
  ilike ("%" ++ q ++ "%") name = true.
Proof.
  intros Hq (before & rest & E). unfold ilike, like.
  rewrite lower_pattern, E.
  change (like_from false ("%" ++ lower q ++ "%")%string)
    with (some_suffix (like_from false (lower q ++ "%")%string)).
  apply some_suffix_spec. exists before, (lower q ++ rest)%string.
  split; [reflexivity|].
  apply like_from_itself; [now rewrite no_backslash_lower|].
  apply like_percent_anything.
Qed.

(** X4.  A keyword with no backslash in it misses nothing: every
    repository of the store whose full name contains the keyword, letter
    case ignored, is in the page when the page covers the table. *)
Theorem search_finds_every_literal_match
    (s : Session) (q : string) (r : Repository.t) :
  q <> ""%string -> no_backslash q = true ->
  In r (repository (tables s)) ->
  contains_ignoring_case q (Repository.full_name r) ->
  exists page,
    result (get_repositories (Some q) 0
              (Z.of_nat (List.length (repository (tables s))))) s
      = Returned page /\
    In r (map repo page).
Proof.
  intros Hne Hq Hin Hc. unfold result.
  rewrite get_repositories_run, sql_page_nonneg by lia.
  eexists. split; [reflexivity|]. cbn [fst]. rewrite map_repo_enrich.
  change (Z.to_nat 0) with 0%nat. cbn [skipn]. rewrite Nat2Z.id.
  rewrite firstn_all2.
  - apply filter_In. split; [exact Hin|].
    destruct q as [|c q]; [contradiction|].
    unfold search_filter. now apply ilike_finds_literal.
  - apply filter_length_le.
Qed.

Lemma search_finds_every_literal_match_witness :
  exists page,
    result (get_repositories (Some "A_%"%string) 0
              (Z.of_nat (List.length
                 (repository (tables
                    (mkSession (mkStore
                       [sample_repository 9 "odd/a_%b" "odd" "a_%b" 1 None None;
                        react] []) 0))))))
           (mkSession (mkStore
              [sample_repository 9 "odd/a_%b" "odd" "a_%b" 1 None None;
               react] []) 0)
      = Returned page /\
    In (sample_repository 9 "odd/a_%b" "odd" "a_%b" 1 None None) (map repo page).
Proof.
  apply (search_finds_every_literal_match
           (mkSession (mkStore
              [sample_repository 9 "odd/a_%b" "odd" "a_%b" 1 None None;
               react] []) 0)
           "A_%"
           (sample_repository 9 "odd/a_%b" "odd" "a_%b" 1 None None)).
  - discriminate.
  - reflexivity.
  - now left.
  - apply contains_ignoring_case_decided. reflexivity.
Defined.

(** With a backslash the keyword can miss a full name that contains it:
    the backslash is taken for an escape and asks for the next character
    alone. *)
Example backslash_keyword_misses_a_literal_match :
  contains_ignoring_case "k\s" "back\slash" /\
  ilike ("%" ++ "k\s" ++ "%") "back\slash" = false /\
  ilike ("%" ++ "k\s" ++ "%") "thanks" = true.
Proof.
  split; [apply contains_ignoring_case_decided; reflexivity|].
  split; reflexivity.
Qed.

(** X5.  Letter case in the keyword does not matter: two keywords that
    differ in letter case only (A to Z) get the same answer, whatever
    else they contain. *)
Theorem search_ignores_the_case_of_the_keyword
    (s : Session) (q1 q2 : string) (skip limit_ : Z) :
  lower q1 = lower q2 -> q1 <> ""%string -> q2 <> ""%string ->
  result (get_repositories (Some q1) skip limit_) s
  = result (get_repositories (Some q2) skip limit_) s.
Proof.
  intros E H1 H2. unfold result. rewrite !get_repositories_run.
  assert (Hf : forall r, search_filter (Some q1) r = search_filter (Some q2) r).
  { intro r. destruct q1 as [|c1 q1]; [contradiction|].
    destruct q2 as [|c2 q2]; [contradiction|].
    unfold search_filter, ilike. now rewrite !lower_pattern, E. }
  now rewrite (filter_ext _ _ Hf).
Qed.

Lemma search_ignores_the_case_of_the_keyword_witness :
  result (get_repositories (Some "ReAcT"%string) 0 20) sample_session
  = result (get_repositories (Some "react"%string) 0 20) sample_session.
Proof.
  apply (search_ignores_the_case_of_the_keyword sample_session "ReAcT" "react" 0 20);
    [reflexivity | discriminate | discriminate].
Defined.

(** X6.  Without a keyword, and with the empty keyword alike, the search
    pages over the whole table in its natural order, for every skip and
    limit the engine takes as row counts (from 0, below 2^63). *)
Theorem search_without_keyword_lists_the_table
    (s : Session) (skip limit_ : Z) :
  0 <= skip < 2 ^ 63 -> 0 <= limit_ < 2 ^ 63 ->
  exists page,
    result (get_repositories None skip limit_) s = Returned page /\
    result (get_repositories (Some ""%string) skip limit_) s = Returned page /\
    map repo page =
      firstn (Z.to_nat limit_) (skipn (Z.to_nat skip) (repository (tables s))).
Proof.
  intros [Hs _] [Hl _]. unfold result.
  rewrite !get_repositories_run, !sql_page_nonneg by assumption.
  rewrite !filter_all by reflexivity.
  eexists. repeat split. apply map_repo_enrich.
Qed.

Lemma search_without_keyword_lists_the_table_witness :
  exists page,
    result (get_repositories None 1 2) sample_session = Returned page /\
    result (get_repositories (Some ""%string) 1 2) sample_session = Returned page /\
    map repo page =
      firstn (Z.to_nat 2) (skipn (Z.to_nat 1) (repository (tables sample_session))).
Proof.
  apply (search_without_keyword_lists_the_table sample_session 1 2); lia.
Defined.

(* ================================================================= *)
(** ** Pages *)

(** X7.  A page a list route returns never holds more than [limit]
    repositories, and a page of the search never more than the table holds
    past the offset: a page returned for an offset past the end is
    empty. *)
Theorem pages_are_bounded (s : Session) :
  (forall q skip limit_,
     match result (get_repositories q skip limit_) s with
     | Returned page =>
         (List.length page <= Z.to_nat limit_)%nat /\
         (List.length page
          <= List.length (repository (tables s)) - Z.to_nat skip)%nat
     | Raised _ => True
     end) /\
  (forall sort limit_,
     match result (get_top_repositories sort limit_) s with
     | Returned page =>
         (List.length page <= Z.to_nat limit_)%nat /\
         (List.length page <= List.length (repository (tables s)))%nat
     | Raised _ => True
     end).
Proof.
  unfold result. split.
  - intros q skip limit_. rewrite get_repositories_run.
    unfold sql_page, sql_offset, sql_limit.
    destruct (skip <? 0); [exact I|].
    destruct (limit_ <? 0); [exact I|].
    cbn [fst]. rewrite length_map, length_firstn, length_skipn.
    pose proof (filter_length_le (search_filter q) (repository (tables s))).
    lia.
  - intros sort limit_. rewrite get_top_repositories_run.
    unfold sql_page, sql_offset, sql_limit.
    destruct (limit_ <? 0); [exact I|].
    cbn [fst]. rewrite length_map, length_firstn.
    assert (List.length (top_order sort (repository (tables s)))
            = List.length (repository (tables s))) as ->.
    { unfold top_order.
      destruct (String.eqb sort "stars"); [|destruct (String.eqb sort "updated")];
        [apply order_by_desc_length | apply order_by_desc_length | reflexivity]. }
    lia.
Qed.

(** X8.  Pages follow one another: for a keyword the driver takes (no NUL
    character in it) and row counts the engine takes (from 0, their sum
    below 2^63), the page of [a] rows at offset [skip] followed by the
    page of [b] rows at offset [skip + a], asked next, is the page of
    [a + b] rows at offset [skip]. *)
Theorem consecutive_pages_join
    (s : Session) (q : option string) (skip a b : Z) :
  keyword_no_nul q = true ->
  0 <= skip -> 0 <= a -> 0 <= b -> skip + a + b < 2 ^ 63 ->
  exists p1 p2,
    result (get_repositories q skip a) s = Returned p1 /\
    result (get_repositories q (skip + a) b)
           (after (get_repositories q skip a) s) = Returned p2 /\
    result (get_repositories q skip (a + b)) s = Returned (p1 ++ p2).
Proof.
  intros _ Hs Ha Hb _.
  assert (Hafter : tables (after (get_repositories q skip a) s) = tables s)
    by apply reads_get_repositories.
  unfold result. rewrite !get_repositories_run.
  fold (after (get_repositories q skip a) s). rewrite Hafter.
  rewrite !sql_page_nonneg by lia.
  do 2 eexists. repeat split. cbn [fst]. f_equal.
  rewrite <- map_app. f_equal.
  rewrite !Z2Nat.inj_add by lia.
  rewrite <- skipn_skipn_add. apply eq_sym, firstn_firstn_skipn.
Qed.

Lemma consecutive_pages_join_witness :
  exists p1 p2,
    result (get_repositories None 1 2) sample_session = Returned p1 /\
    result (get_repositories None (1 + 2) 1)
           (after (get_repositories None 1 2) sample_session) = Returned p2 /\
    result (get_repositories None 1 (2 + 1)) sample_session = Returned (p1 ++ p2).
Proof.
  apply (consecutive_pages_join sample_session None 1 2 1);
    [reflexivity | lia | lia | lia | lia].
Defined.

(** X9.  Where the sort keys of the rows are distinct (no two rows with
    the same stars under "stars", the same updated_at under "updated"),
    asking [get_top_repositories] for more rows only adds rows at the end:
    for limits the engine takes as row counts (from 0, below 2^63) the
    answer for the smaller limit is the head of the answer for the larger
    one. *)
Theorem top_of_fewer_is_a_head_of_top_of_more
    (s : Session) (sort : string) (a b : Z) :
  distinct_sort_keys sort (repository (tables s)) ->
  0 <= a -> a <= b -> b < 2 ^ 63 ->
  exists pa pb,
    result (get_top_repositories sort a) s = Returned pa /\
    result (get_top_repositories sort b) s = Returned pb /\
    pa = firstn (Z.to_nat a) pb.
Proof.
  intros _ Ha Hab _. unfold result.
  rewrite !get_top_repositories_run, !sql_limit_nonneg by lia.
  do 2 eexists. repeat split. cbn [fst].
  rewrite firstn_map, firstn_firstn. do 2 f_equal. lia.
Qed.

Lemma top_of_fewer_is_a_head_of_top_of_more_witness :
  exists pa pb,
    result (get_top_repositories "stars" 2)
           (mkSession (mkStore [rocq; react; widgets; linux] []) 0) = Returned pa /\
    result (get_top_repositories "stars" 4)
           (mkSession (mkStore [rocq; react; widgets; linux] []) 0) = Returned pb /\
    pa = firstn (Z.to_nat 2) pb.
Proof.
  apply (top_of_fewer_is_a_head_of_top_of_more
           (mkSession (mkStore [rocq; react; widgets; linux] []) 0) "stars" 2 4);
    [|lia|lia|lia].
  split; [intros _ | discriminate].
  simpl. repeat constructor; simpl; intuition discriminate.
Defined.

(** X10.  A negative skip or limit is not caught by the route: the engine
    refuses the statement, the call raises (a 500 answer) after that one
    statement, and no repository is looked up. *)
Theorem negative_page_arguments_raise
    (s : Session) (q : option string) (skip limit_ : Z) :
  skip < 0 \/ limit_ < 0 ->
  (exists e, result (get_repositories q skip limit_) s = Raised e) /\
  status_code (result (get_repositories q skip limit_) s) = 500 /\
  executed (after (get_repositories q skip limit_) s) = S (executed s) /\
  (limit_ < 0 ->
   forall sort,
     (exists e, result (get_top_repositories sort limit_) s = Raised e) /\
     executed (after (get_top_repositories sort limit_) s) = S (executed s)).
Proof.
  intro H.
  assert (Htop : limit_ < 0 -> forall sort,
            (exists e, result (get_top_repositories sort limit_) s = Raised e) /\
            executed (after (get_top_repositories sort limit_) s) = S (executed s)).
  { intros Hl sort. unfold result, after. rewrite get_top_repositories_run.
    unfold sql_page, sql_offset, sql_limit.
    destruct (Z.ltb_spec limit_ 0); [|lia]. split; [now eexists | reflexivity]. }
  unfold result, after in *.
  rewrite get_repositories_run. unfold sql_page, sql_offset, sql_limit.
  destruct (Z.ltb_spec skip 0) as [Hs|Hs];
    [|destruct (Z.ltb_spec limit_ 0) as [Hl|Hl]; [|lia]];
    (split; [now eexists|]); (split; [reflexivity|]);
    (split; [reflexivity | exact Htop]).
Qed.

Lemma negative_page_arguments_raise_witness :
  (exists e, result (get_repositories None 0 (-1)) sample_session = Raised e) /\
  status_code (result (get_repositories None 0 (-1)) sample_session) = 500 /\
  executed (after (get_repositories None 0 (-1)) sample_session)
    = S (executed sample_session) /\
  (-1 < 0 ->
   forall sort,
     (exists e, result (get_top_repositories sort (-1)) sample_session = Raised e) /\
     executed (after (get_top_repositories sort (-1)) sample_session)
       = S (executed sample_session)).
Proof.
  apply (negative_page_arguments_raise sample_session None 0 (-1)). right. lia.
Defined.

(* ================================================================= *)
(** ** Rows and their analyses *)

Lemma find_id_unique (l : list Repository.t) (r : Repository.t) :
  NoDup (map Repository.id l) -> In r l ->
  find (fun x => Repository.id x =? Repository.id r) l = Some r.
Proof.
  induction l as [|b l IH]; simpl; intros Hnd Hin; [contradiction|].
  inversion Hnd as [|? ? Hnotin Hnd']; subst.
  destruct Hin as [->|Hin].
  - now rewrite Z.eqb_refl.
  - destruct (Z.eqb_spec (Repository.id b) (Repository.id r)) as [E|_].
    + exfalso. apply Hnotin. rewrite E. now apply in_map.
    + now apply IH.
Qed.

(** X11.  With ids unique among the repository rows (the primary key),
    asking [get_repository_detail] for the id of a row of the store returns
    that very row, every column of it, with its analysis attached. *)
Theorem detail_returns_the_row (s : Session) (r : Repository.t) :
  NoDup (map Repository.id (repository (tables s))) ->
  In r (repository (tables s)) ->
  result (get_repository_detail (Repository.id r)) s
  = Returned (RepositoryPayload
      (mkEnriched r
         (option_map view_of (lookup_analysis (tables s) (Repository.url r))))).
Proof.
  intros Hnd Hin. unfold result. rewrite get_repository_detail_run.
  now rewrite (find_id_unique _ _ Hnd Hin).
Qed.

Lemma detail_returns_the_row_witness :
  result (get_repository_detail (Repository.id linux)) sample_session
  = Returned (RepositoryPayload
      (mkEnriched linux
         (option_map view_of
            (lookup_analysis (tables sample_session) (Repository.url linux))))).
Proof.
  apply (detail_returns_the_row sample_session linux).
  - simpl. repeat constructor; simpl; intuition discriminate.
  - simpl. tauto.
Defined.

Lemma analyze_project_of_enriched (s s' : Session) (r : Repository.t) :
  tables s' = tables s ->
  result (analyze_project (Repository.url r)) s'
  = Returned match analysis (enrich (tables s) r) with
             | Some v => v
             | None => pending_placeholder
             end.
Proof.
  intro E. unfold result. rewrite analyze_project_run, E. cbn [fst].
  unfold enrich. cbn [analysis].
  destruct (lookup_analysis _ _); reflexivity.
Qed.

(** X12.  The analysis endpoint agrees with the listings: for every
    repository a route has returned, [analyze_project], asked next for the
    url of that repository, returns the [{content, status}] the listing
    attached to it, and the pending placeholder when the listing attached
    None.  Nothing is said of a listing that raises. *)
Theorem analysis_endpoint_agrees_with_the_listings (s : Session) :
  (forall q skip limit_,
     match result (get_repositories q skip limit_) s with
     | Returned page =>
         forall e, In e page ->
           result (analyze_project (Repository.url (repo e)))
                  (after (get_repositories q skip limit_) s)
           = Returned match analysis e with
                      | Some v => v
                      | None => pending_placeholder
                      end
     | Raised _ => True
     end) /\
  (forall sort limit_,
     match result (get_top_repositories sort limit_) s with
     | Returned page =>
         forall e, In e page ->
           result (analyze_project (Repository.url (repo e)))
                  (after (get_top_repositories sort limit_) s)
           = Returned match analysis e with
                      | Some v => v
                      | None => pending_placeholder
                      end
     | Raised _ => True
     end) /\
  (forall repo_id,
     match result (get_repository_detail repo_id) s with
     | Returned (RepositoryPayload e) =>
         result (analyze_project (Repository.url (repo e)))
                (after (get_repository_detail repo_id) s)
         = Returned match analysis e with
                    | Some v => v
                    | None => pending_placeholder
                    end
     | _ => True
     end).
Proof.
  repeat split.
  - intros q skip limit_.
    pose proof (proj1 (reads_get_repositories q skip limit_ s)) as Ht.
    revert Ht. unfold result at 1, after. rewrite get_repositories_run.
    unfold sql_page, sql_offset, sql_limit.
    destruct (skip <? 0); [exact (fun _ => I)|].
    destruct (limit_ <? 0); [exact (fun _ => I)|].
    cbn [fst snd]. intros Ht e He.
    apply in_map_iff in He as (r & <- & _).
    now apply analyze_project_of_enriched.
  - intros sort limit_.
    pose proof (proj1 (reads_get_top_repositories sort limit_ s)) as Ht.
    revert Ht. unfold result at 1, after. rewrite get_top_repositories_run.
    unfold sql_page, sql_offset, sql_limit.
    destruct (limit_ <? 0); [exact (fun _ => I)|].
    cbn [fst snd]. intros Ht e He.
    apply in_map_iff in He as (r & <- & _).
    now apply analyze_project_of_enriched.
  - intro repo_id.
    pose proof (proj1 (reads_get_repository_detail repo_id s)) as Ht.
    revert Ht. unfold result at 1, after. rewrite get_repository_detail_run.
    destruct (find _ _) as [r|]; cbn [fst snd]; [|exact (fun _ => I)].
    intro Ht. now apply analyze_project_of_enriched.
Qed.

Lemma find_app_single {A} (c : A -> bool) (l : list A) (a : A) :
  find c (l ++ [a]) =
  match find c l with
  | Some x => Some x
  | None => if c a then Some a else None
  end.
Proof.
  induction l as [|b l IH]; simpl; [reflexivity|].
  destruct (c b); [reflexivity | exact IH].
Qed.

Lemma lookup_with_analysis (a : AIAnalysis.t) (s : Session) (u : string) :
  (forall x, In x (ai_analysis (tables s)) -> AIAnalysis.url x <> AIAnalysis.url a) ->
  lookup_analysis (tables (with_analysis a s)) u =
  if String.eqb (AIAnalysis.url a) u then Some a
  else lookup_analysis (tables s) u.
Proof.
  intro Hfresh. unfold lookup_analysis, with_analysis. cbn [tables ai_analysis].
  rewrite find_app_single.
  destruct (String.eqb_spec (AIAnalysis.url a) u) as [E|E].
  - rewrite find_url_none; [reflexivity|]. now rewrite <- E.
  - destruct (find _ _); reflexivity.
Qed.

Lemma enrich_with_analysis (a : AIAnalysis.t) (s : Session) (r : Repository.t) :
  (forall x, In x (ai_analysis (tables s)) -> AIAnalysis.url x <> AIAnalysis.url a) ->
  enrich (tables (with_analysis a s)) r = attach a (enrich (tables s) r).
Proof.
  intro Hfresh. unfold enrich, attach. cbn [repo].
  rewrite lookup_with_analysis by exact Hfresh.
  destruct (String.eqb (AIAnalysis.url a) (Repository.url r)); reflexivity.
Qed.

(** X13.  When the pipeline writes an analysis row for a url that had
    none, the routes answer as before except on that url: the same
    repositories in the same order, those with the url of the new row now
    carrying its [{content, status}], and [analyze_project] returning it
    for that url and its former answer for any other. *)
Theorem new_analysis_row_shows_on_its_repository
    (s : Session) (a : AIAnalysis.t) :
  (forall x, In x (ai_analysis (tables s)) -> AIAnalysis.url x <> AIAnalysis.url a) ->
  (forall q skip limit_,
     result (get_repositories q skip limit_) (with_analysis a s)
     = outcome_map (map (attach a)) (result (get_repositories q skip limit_) s)) /\
  (forall sort limit_,
     result (get_top_repositories sort limit_) (with_analysis a s)
     = outcome_map (map (attach a)) (result (get_top_repositories sort limit_) s)) /\
  (forall repo_id,
     result (get_repository_detail repo_id) (with_analysis a s)
     = outcome_map (attach_detail a) (result (get_repository_detail repo_id) s)) /\
  result (analyze_project (AIAnalysis.url a)) (with_analysis a s)
    = Returned (view_of a) /\
  (forall url, url <> AIAnalysis.url a ->
     result (analyze_project url) (with_analysis a s)
     = result (analyze_project url) s).
Proof.
  intro Hfresh.
  assert (Hmap : forall rows,
            map (enrich (tables (with_analysis a s))) rows
            = map (attach a) (map (enrich (tables s)) rows)).
  { intro rows. rewrite map_map. apply map_ext. intro r.
    now apply enrich_with_analysis. }
  unfold result. repeat split.
  - intros q skip limit_. rewrite !get_repositories_run.
    change (repository (tables (with_analysis a s))) with (repository (tables s)).
    destruct (sql_page _ _ _) as [rows|e]; cbn [fst outcome_map];
      [now rewrite Hmap | reflexivity].
  - intros sort limit_. rewrite !get_top_repositories_run.
    change (repository (tables (with_analysis a s))) with (repository (tables s)).
    destruct (sql_page _ _ _) as [rows|e]; cbn [fst outcome_map];
      [now rewrite Hmap | reflexivity].
  - intro repo_id. rewrite !get_repository_detail_run.
    change (repository (tables (with_analysis a s))) with (repository (tables s)).
    destruct (find _ _) as [r|]; cbn [fst outcome_map attach_detail];
      [now rewrite enrich_with_analysis | reflexivity].
  - rewrite analyze_project_run, lookup_with_analysis by exact Hfresh.
    now rewrite String.eqb_refl.
  - intros url Hu. rewrite !analyze_project_run, lookup_with_analysis
      by exact Hfresh.
    destruct (String.eqb_spec (AIAnalysis.url a) url) as [E|_];
      [now subst | reflexivity].
Qed.

Lemma new_analysis_row_shows_on_its_repository_witness :
  (forall q skip limit_,
     result (get_repositories q skip limit_)
            (with_analysis widgets_analysis (mkSession (mkStore [react; widgets] []) 0))
     = outcome_map (map (attach widgets_analysis))
         (result (get_repositories q skip limit_)
                 (mkSession (mkStore [react; widgets] []) 0))) /\
  (forall sort limit_,
     result (get_top_repositories sort limit_)
            (with_analysis widgets_analysis (mkSession (mkStore [react; widgets] []) 0))
     = outcome_map (map (attach widgets_analysis))
         (result (get_top_repositories sort limit_)
                 (mkSession (mkStore [react; widgets] []) 0))) /\
  (forall repo_id,
     result (get_repository_detail repo_id)
            (with_analysis widgets_analysis (mkSession (mkStore [react; widgets] []) 0))
     = outcome_map (attach_detail widgets_analysis)
         (result (get_repository_detail repo_id)
                 (mkSession (mkStore [react; widgets] []) 0))) /\
  result (analyze_project (AIAnalysis.url widgets_analysis))
         (with_analysis widgets_analysis (mkSession (mkStore [react; widgets] []) 0))
    = Returned (view_of widgets_analysis) /\
  (forall url, url <> AIAnalysis.url widgets_analysis ->
     result (analyze_project url)
            (with_analysis widgets_analysis (mkSession (mkStore [react; widgets] []) 0))
     = result (analyze_project url) (mkSession (mkStore [react; widgets] []) 0)).
Proof.
  apply (new_analysis_row_shows_on_its_repository
           (mkSession (mkStore [react; widgets] []) 0) widgets_analysis).
  intros x [].
Defined.

(** The scenario end to end: the search finds widgets with 42 stars and
    no analysis; once the analysis row is written the same search carries
    it. *)
Example widgets_before_and_after_its_analysis :
  result (get_repositories (Some "widgets"%string) 0 20)
         (mkSession (mkStore [react; widgets] []) 0)
    = Returned [mkEnriched widgets None] /\
  Repository.stars widgets = 42 /\
  result (get_repositories (Some "widgets"%string) 0 20)
         (with_analysis widgets_analysis (mkSession (mkStore [react; widgets] []) 0))
    = Returned [mkEnriched widgets
                  (Some (mkView (Some "Widget library."%string) "completed"))].
Proof. repeat split. Qed.

(* ================================================================= *)
(** ** Routing *)

Lemma path_matches_prefix (prefix : list string) (t : list PathPart)
    (p : list string) :
  path_matches (map Fixed prefix ++ t) (prefix ++ p) = path_matches t p.
Proof.
  induction prefix as [|a prefix IH]; simpl; [reflexivity|].
  now rewrite String.eqb_refl, IH.
Qed.

Lemma path_matches_nothing_left (t : list PathPart) :
  path_matches t [] = true -> t = [].
Proof. destruct t as [|[?|?] t]; simpl; [reflexivity | discriminate..]. Qed.

Lemma path_matches_root (prefix : list string) (x : string) (p : list string) :
  path_matches [] (prefix ++ x :: p) = false.
Proof. destruct prefix; reflexivity. Qed.

Lemma path_matches_no_path (prefix : list string) (x : PathPart)
    (t : list PathPart) :
  path_matches (map Fixed prefix ++ x :: t) [] = false.
Proof. destruct prefix; [destruct x|]; reflexivity. Qed.

(** A path that fits /repositories/test fits /repositories/{repo_id}. *)
Lemma path_of_test_fits_detail (prefix p : list string) :
  path_matches (map Fixed prefix ++ [Fixed "repositories"; Fixed "test"]) p = true ->
  path_matches (map Fixed prefix ++ [Fixed "repositories"; Placeholder "repo_id"]) p
  = true.
Proof.
  revert p. induction prefix as [|a prefix IH]; intros p H.
  - cbn [map app] in *.
    destruct p as [|x [|y [|z p]]]; cbn [path_matches] in *;
      try discriminate;
      repeat match type of H with
             | (_ && _)%bool = true => apply andb_true_iff in H as [? H]
             end;
      try discriminate.
    match goal with Hx : String.eqb "repositories" x = true |- _ => rewrite Hx end.
    match goal with Hy : String.eqb "test" y = true |- _ =>
      apply String.eqb_eq in Hy; subst y end.
    reflexivity.
  - cbn [map app] in *. destruct p as [|x p]; cbn [path_matches] in *;
      [discriminate|].
    apply andb_true_iff in H as [Hx H]. rewrite Hx. cbn [andb]. now apply IH.
Qed.

(** X14.  The route /repositories/test is declared after
    /repositories/{repo_id} and is never reached: whatever the prefix, the
    method and the path, no request is handled by [test_repo]. *)
Theorem test_repo_is_never_reached
    (prefix : list string) (method : string) (path : list string) :
  resolve prefix method path <> Handled Ep_test_repo.
Proof.
  unfold resolve, app_routes, include_router, repositories_router, analysis_router.
  cbn [map app resolve_in route_path route_method route_endpoint].
  destruct (path_matches
              (map Fixed prefix ++ [Fixed "repositories"; Placeholder "repo_id"])
              path) eqn:Hdetail;
    destruct (path_matches
                (map Fixed prefix ++ [Fixed "repositories"; Fixed "test"])
                path) eqn:Htest;
    try (apply path_of_test_fits_detail in Htest; congruence);
    repeat match goal with
           | |- context [if ?c then _ else _] => destruct c
           end;
    discriminate.
Qed.

(** X15.  Where the declared paths lead, for every prefix: the list, the
    top list (declared before the placeholder, which would take it
    otherwise), any other non-empty part after /repositories/ (the word
    test among them) to the detail route, the two analysis paths by their
    methods, and the root. *)
Theorem declared_paths_resolve (prefix : list string) :
  resolve prefix "GET" (prefix ++ ["repositories"%string])
    = Handled Ep_get_repositories /\
  resolve prefix "GET" (prefix ++ ["repositories"%string; "top"%string])
    = Handled Ep_get_top_repositories /\
  (forall part, part <> ""%string -> part <> "top"%string ->
     resolve prefix "GET" (prefix ++ ["repositories"%string; part])
     = Handled Ep_get_repository_detail) /\
  resolve prefix "GET" (prefix ++ ["repositories"%string; "test"%string])
    = Handled Ep_get_repository_detail /\
  resolve prefix "POST" (prefix ++ ["analysis"%string; "analyze"%string])
    = Handled Ep_analyze_project /\
  resolve prefix "GET" (prefix ++ ["analysis"%string; "analyze"%string])
    = MethodNotAllowed /\
  resolve prefix "GET" (prefix ++ ["analysis"%string; "test"%string])
    = Handled Ep_test_analysis /\
  resolve prefix "POST" (prefix ++ ["repositories"%string]) = MethodNotAllowed /\
  resolve prefix "GET" [] = Handled Ep_root.
Proof.
  unfold resolve, app_routes, include_router, repositories_router, analysis_router.
  cbn [map app resolve_in route_path route_method route_endpoint].
  repeat split; try reflexivity;
    try (rewrite !path_matches_prefix, ?path_matches_root; reflexivity);
    try (rewrite !path_matches_no_path; reflexivity).
  intros part Hne Htop. rewrite !path_matches_prefix.
  cbn [path_matches].
  apply String.eqb_neq in Hne, Htop.
  rewrite (String.eqb_sym "top" part), Htop, Hne. reflexivity.
Qed.

(** X16.  Every request the dashboard sends has a route: under the
    default prefix its method and path resolve to the function it is meant
    for. *)
Theorem dashboard_requests_have_routes (r : HttpRequest) :
  resolve API_BASE_PATH (request_method r) (request_path r)
  = Handled (request_endpoint r).
Proof. destruct r; reflexivity. Qed.

(* ================================================================= *)
(** ** The dashboard *)

Lemma send_run {A} (r : HttpRequest) (route : Db A) (b : Browser) :
  send r route b =
  (result route (server b),
   mkBrowser (after route (server b)) (requests b ++ [r])).
Proof. unfold send, result, after. now destruct (route (server b)). Qed.

(** One click presses one button. *)
Lemma pressed_one (i : Interaction) (l : string) (k : Z) :
  pressed i (Labelled l) = true -> pressed i (Keyed k) = false.
Proof. unfold pressed. destruct (clicked i) as [[?|?]|]; congruence. Qed.

Lemma search_result_sends_nothing
    (i : Interaction) (e : EnrichedRepository) (b : Browser) :
  pressed i (Labelled "搜索") = true ->
  snd (search_result i e b) = b.
Proof.
  intro H. unfold search_result.
  rewrite (pressed_one i _ (Repository.id (repo e)) H).
  now destruct (analysis_content e).
Qed.

Lemma search_results_send_nothing
    (i : Interaction) (l : list EnrichedRepository) (b : Browser) :
  pressed i (Labelled "搜索") = true ->
  snd (ui_for_each (search_result i) l b) = b.
Proof.
  intro H. revert b. induction l as [|e l IH]; intro b; [reflexivity|].
  cbn [ui_for_each]. unfold ui_bind at 1.
  pose proof (search_result_sends_nothing i e b H) as He.
  destruct (search_result i e b) as [x b1]. cbn [snd] in He. subst b1.
  unfold ui_bind at 1. specialize (IH b).
  destruct (ui_for_each (search_result i) l b) as [xs b2]. cbn [snd] in IH.
  now subst b2.
Qed.

Lemma script_browser (i : Interaction) (b : Browser) :
  snd (script i b) =
  snd (match page i with
       | SearchPage => search_page i
       | TopPage => top_page
       | AnalyzedPage => analyzed_page
       end b).
Proof.
  unfold script, ui_bind. now destruct (match page i with
                                        | SearchPage => search_page i
                                        | TopPage => top_page
                                        | AnalyzedPage => analyzed_page
                                        end b).
Qed.

Lemma search_page_browser (i : Interaction) (b : Browser) :
  snd (search_page i b) =
  if pressed i (Labelled "搜索") then
    match search_query i with
    | String _ _ as text =>
        mkBrowser (after (get_repositories (Some text) 0 20) (server b))
                  (requests b ++ [GET_repositories (Some text)])
    | EmptyString => b
    end
  else b.
Proof.
  unfold search_page.
  destruct (pressed i (Labelled "搜索")) eqn:Hp; [|reflexivity].
  destruct (search_query i) as [|c text]; [reflexivity|].
  unfold ui_bind at 1, requests_get_repositories. rewrite send_run.
  destruct (result (get_repositories (Some (String c text)) 0 20) (server b))
    as [repos|err]; [|reflexivity].
  unfold ui_bind.
  pose proof (search_results_send_nothing i repos
                (mkBrowser
                   (after (get_repositories (Some (String c text)) 0 20)
                          (server b))
                   (requests b ++ [GET_repositories (Some (String c text))]))
                Hp) as Hq.
  destruct (ui_for_each (search_result i) repos _) as [results b2].
  exact Hq.
Qed.

Lemma top_page_browser (b : Browser) :
  snd (top_page b) =
  mkBrowser (after (get_top_repositories "updated" 10)
               (after (get_top_repositories "stars" 10) (server b)))
            (requests b ++
             [GET_repositories_top "stars"; GET_repositories_top "updated"]).
Proof.
  unfold top_page, top_column, requests_get_top, ui_bind.
  rewrite send_run. cbn [snd fst server requests ui_ret].
  rewrite send_run. cbn [snd fst server requests ui_ret].
  now rewrite <- app_assoc.
Qed.

Lemma analyzed_page_browser (b : Browser) :
  snd (analyzed_page b) =
  mkBrowser (after (get_repositories None 0 20) (server b))
            (requests b ++ [GET_repositories None]).
Proof.
  unfold analyzed_page, requests_get_repositories, ui_bind.
  rewrite send_run.
  now destruct (result (get_repositories None 0 20) (server b)).
Qed.

(** X17.  What a run of the script sends: the search page one search when
    the search button was clicked on a non-empty text and nothing
    otherwise, the top page the two top lists, the analyzed page one
    listing.  The search page draws a button on every result without
    analysis, yet no run posts to /analysis/analyze: a run caused by the
    click on such a button does not get past the search button.  The
    tables of the server are as before. *)
Theorem script_requests (i : Interaction) (b : Browser) :
  requests (snd (script i b)) =
    requests b ++
    match page i with
    | SearchPage =>
        if pressed i (Labelled "搜索") then
          match search_query i with
          | String _ _ as text => [GET_repositories (Some text)]
          | EmptyString => []
          end
        else []
    | TopPage => [GET_repositories_top "stars"; GET_repositories_top "updated"]
    | AnalyzedPage => [GET_repositories None]
    end /\
  (forall url, In (POST_analysis_analyze url) (requests (snd (script i b))) ->
               In (POST_analysis_analyze url) (requests b)) /\
  tables (server (snd (script i b))) = tables (server b).
Proof.
  rewrite script_browser.
  destruct (page i).
  - rewrite search_page_browser.
    destruct (pressed i (Labelled "搜索"));
      [destruct (search_query i) as [|c text]|];
      cbn [requests server]; rewrite ?app_nil_r;
      (split; [reflexivity|]); (split; [|try reflexivity]);
      try (intros url Hin; exact Hin).
    + intros url Hin. apply in_app_or in Hin as [Hin|[Hin|[]]];
        [exact Hin | discriminate].
    + apply reads_get_repositories.
  - rewrite top_page_browser. cbn [requests server].
    split; [reflexivity|]. split.
    + intros url Hin. apply in_app_or in Hin as [Hin|[Hin|[Hin|[]]]];
        [exact Hin | discriminate..].
    + rewrite (proj1 (reads_get_top_repositories "updated" 10 _)).
      apply reads_get_top_repositories.
  - rewrite analyzed_page_browser. cbn [requests server].
    split; [reflexivity|]. split.
    + intros url Hin. apply in_app_or in Hin as [Hin|[Hin|[]]];
        [exact Hin | discriminate].
    + apply reads_get_repositories.
Qed.

(** A run caused by the click on the button of repository 1, with the
    page and the search text as they were: nothing is sent and the page
    shows the empty search form. *)
Example click_on_analyze_does_nothing :
  script (mkInteraction SearchPage "react" (Some (Keyed 1)))
         (mkBrowser sample_session [])
  = ([ st_sidebar_radio "导航" ["项目搜索"; "热门项目"; "已分析项目"]%string;
       st_title "GitHub 项目智能分析平台 - 搜索";
       st_header "搜索项目";
       st_text_input "输入搜索关键词";
       st_button "搜索" None;
       st_markdown "---";
       st_markdown "RepoInsight - 智能GitHub项目分析平台" ],
     mkBrowser sample_session []).
Proof. reflexivity. Qed.

(** X18.  The analyzed page looks at the first 20 rows of the repository
    table only: it shows, in table order, those of them that have an
    analysis with a non-empty content, the warning when there is none, and
    never the error message; an analyzed repository further down the table
    is not shown. *)
Theorem analyzed_page_shows_the_first_twenty
    (text : string) (click : option ButtonId) (b : Browser) :
  exists shown,
    shown = filter is_analyzed
              (map (enrich (tables (server b)))
                   (firstn 20 (repository (tables (server b))))) /\
    fst (script (mkInteraction AnalyzedPage text click) b) =
      st_sidebar_radio "导航" (map page_name [SearchPage; TopPage; AnalyzedPage])
      :: [st_title "已分析项目"; st_info "只展示有AI分析结果的项目"]
      ++ match shown with
         | [] => [st_warning "暂无已分析项目"]
         | _ => []
         end
      ++ map analyzed_result shown
      ++ [st_markdown "---"; st_markdown "RepoInsight - 智能GitHub项目分析平台"].
Proof.
  eexists. split; [reflexivity|].
  unfold script, ui_bind at 1. cbn [page].
  unfold analyzed_page, requests_get_repositories, ui_bind at 1.
  rewrite send_run. unfold result.
  rewrite get_repositories_run, sql_page_nonneg by lia.
  rewrite filter_all by reflexivity.
  change (Z.to_nat 0) with 0%nat. change (Z.to_nat 20) with 20%nat.
  cbn [skipn fst ui_ret]. now rewrite <- !app_assoc.
Qed.

(** The search for react, clicked: one request, one result, and on it the
    button that asks for the analysis. *)
Example search_page_for_react :
  script (mkInteraction SearchPage "react" (Some (Labelled "搜索")))
         (mkBrowser sample_session [])
  = ([ st_sidebar_radio "导航" ["项目搜索"; "热门项目"; "已分析项目"]%string;
       st_title "GitHub 项目智能分析平台 - 搜索";
       st_header "搜索项目";
       st_text_input "输入搜索关键词";
       st_button "搜索" None;
       st_spinner "正在搜索..."
         [ st_expander "facebook/react (220 ⭐)"
             [ st_write (Some "**描述:** None"%string);
               st_write (Some "**语言:** None"%string);
               st_write (Some "**主题:** None"%string);
               st_button "分析项目" (Some 1) ] ];
       st_markdown "---";
       st_markdown "RepoInsight - 智能GitHub项目分析平台" ],
     mkBrowser (mkSession (tables sample_session) 2)
               [GET_repositories (Some "react"%string)]).
Proof. reflexivity. Qed.
